(** * The prime-checking MQ consumer (consumer.js), embedded in Rocq

    The worker polls an IBM MQ queue for JSON work records [{id, value}],
    runs a Miller-Rabin test on [BigInt(value)] and posts [{id, value, prime}]
    on a second queue.

    The embedding follows the source:
    - JavaScript [BigInt] values are [Z]; [%] and [/] on them truncate
      towards zero ([Z.rem], [Z.quot]);
    - JavaScript [Number] values are IEEE 754 binary64 floats, taken from
      the specification of floating-point arithmetic of the standard
      library ([spec_float] with [prec = 53], [emax = 1024]);
    - a call either returns, throws or never returns ([completion]);
    - the code that talks to the queue manager and to the Node.js event
      loop is a state-and-exception monad over the global
      [outQueueHandle] and the trace of calls made to the outside;
    - [JSON.parse], [JSON.stringify] and [BigInt] on strings are fields
      of an [environment]; [json_environment] fills them in for ASCII
      texts with integer literals and leaves the rest to a parameter. *)

From Stdlib Require Import ZArith Znumtheory Zmod Lia List Bool String Ascii.
From Stdlib Require Import Strings.Byte.
From Stdlib Require Import Floats.SpecFloat.
From Stdlib Require DecimalString DecimalN.
Import ListNotations.

Local Open Scope Z_scope.

(* ================================================================== *)
(** * Completions of a JavaScript evaluation *)
(* ================================================================== *)

Inductive js_error : Type :=
| SyntaxError
| TypeError
| RangeError.

(** [Diverges] is the completion of a loop that never exits. *)
Inductive completion (A : Type) : Type :=
| Returns (a : A)
| Throws (e : js_error)
| Diverges.

Arguments Returns {A} a.
Arguments Throws {A} e.
Arguments Diverges {A}.

Definition cbind {A B : Type} (c : completion A) (k : A -> completion B)
  : completion B :=
  match c with
  | Returns a => k a
  | Throws e => Throws e
  | Diverges => Diverges
  end.

Declare Scope completion_scope.
Delimit Scope completion_scope with completion.
Notation "x <- c ;; k" := (cbind c (fun x => k))
  (at level 61, c at next level, right associativity) : completion_scope.

(* ================================================================== *)
(** * Numbers: binary64 floats and their conversions *)
(* ================================================================== *)

Definition prec : Z := 53.
Definition emax : Z := 1024.

(** [Number.MAX_VALUE], the largest finite double. *)
Definition Number_MAX_VALUE : Z := (2 ^ 53 - 1) * 2 ^ 971.

(** [Number(z)] for a BigInt [z]: the nearest double, ties to even. *)
Definition Number_of_BigInt (z : Z) : spec_float :=
  binary_normalize prec emax z 0 false.

(** [x * y] on Numbers. *)
Definition Number_mul (x y : spec_float) : spec_float := SFmul prec emax x y.

(** [Math.floor(x)]: NaN, the infinities and the zeros are returned as they
    are; a finite [±m·2^e] with [e < 0] is rounded down to an integer, which
    is exactly representable. *)
Definition Math_floor (x : spec_float) : spec_float :=
  match x with
  | S754_finite s m e =>
      if 0 <=? e then x
      else binary_normalize prec emax
             (cond_Zopp s (Zpos m) / 2 ^ (- e)) 0 s
  | _ => x
  end.

(** [BigInt(x)] for a Number [x]: the integer [x] denotes, and a RangeError
    when [x] is not an integer (NaN and the infinities included). *)
Definition BigInt_of_Number (x : spec_float) : completion Z :=
  match x with
  | S754_zero _ => Returns 0
  | S754_finite s m e =>
      if 0 <=? e then Returns (cond_Zopp s (Zpos m * 2 ^ e))
      else if Zpos m mod 2 ^ (- e) =? 0
           then Returns (cond_Zopp s (Zpos m / 2 ^ (- e)))
           else Throws RangeError
  | _ => Throws RangeError
  end.

(** What [Math.random()] may return: a double with positive sign, greater
    than or equal to 0 and less than 1. *)
Definition is_random (r : spec_float) : bool :=
  match r with
  | S754_zero false => true
  | S754_finite false m e =>
      bounded prec emax m e && SFltb r (Number_of_BigInt 1)
  | _ => false
  end.

(** Number of binary digits of the magnitude of [z]; it bounds the number
    of times [z] can be halved before it reaches 0. *)
Definition bitlen (z : Z) : nat :=
  match z with
  | Z0 => O
  | Zpos p | Zneg p => Pos.size_nat p
  end.

(* ================================================================== *)
(** * modPow *)
(* ================================================================== *)

(** The [while (exponent > 0n)] loop.  [fuel] bounds the number of
    iterations; [None] means that the bound was reached with the loop
    still running. *)
Fixpoint modPow_loop (fuel : nat) (result base exponent modulus : Z)
  : option Z :=
  if exponent >? 0 then
    match fuel with
    | O => None
    | S fuel' =>
        let result' :=
          if Z.rem exponent 2 =? 1 then Z.rem (result * base) modulus
          else result in
        modPow_loop fuel' result' (Z.rem (base * base) modulus)
          (Z.quot exponent 2) modulus
    end
  else Some result.

(** [modPow(base, exponent, modulus)].  With a zero modulus the first
    [base % modulus] throws a RangeError (division by zero).  The loop
    halves [exponent] on each turn, so [bitlen exponent] turns are given. *)
Definition modPow (base exponent modulus : Z) : completion Z :=
  if modulus =? 1 then Returns 0
  else if modulus =? 0 then Throws RangeError
  else
    match modPow_loop (bitlen exponent) 1 (Z.rem base modulus)
                      exponent modulus with
    | Some result => Returns result
    | None => Diverges
    end.

(* ================================================================== *)
(** * millerRabin *)
(* ================================================================== *)

(** [while (d % 2n === 0n) { d /= 2n; s += 1n; }].  With [d = 0] the source
    loop never exits. *)
Fixpoint factorTwos (fuel : nat) (s d : Z) : option (Z * Z) :=
  if Z.rem d 2 =? 0 then
    match fuel with
    | O => None
    | S fuel' => factorTwos fuel' (s + 1) (Z.quot d 2)
    end
  else Some (s, d).

(** [2n + BigInt(Math.floor(Math.random() * Number(n - 4n)))], where [r] is
    the value returned by [Math.random()]. *)
Definition drawWitness (r : spec_float) (n : Z) : completion Z :=
  (u <- BigInt_of_Number
          (Math_floor (Number_mul r (Number_of_BigInt (n - 4)))) ;;
   Returns (2 + u))%completion.

(** [for (let r = 1n; r < s; r++) { x = modPow(x, 2n, n); if (x === n - 1n)
    continue WitnessLoop; }] with [count] turns left.  [Returns true] stands
    for [continue WitnessLoop], [Returns false] for leaving the loop at
    [r = s]. *)
Fixpoint squareLoop (count : nat) (x n : Z) : completion bool :=
  match count with
  | O => Returns false
  | S count' =>
      (x' <- modPow x 2 n ;;
       if x' =? n - 1 then Returns true else squareLoop count' x' n)%completion
  end.

(** The loop labelled [WitnessLoop], at round [i] with [rounds] rounds left.
    [random i] is the value [Math.random()] returns in round [i]. *)
Fixpoint witnessLoop (random : nat -> spec_float) (n s d : Z)
                     (i rounds : nat) : completion bool :=
  match rounds with
  | O => Returns true
  | S rounds' =>
      (a <- drawWitness (random i) n ;;
       x <- modPow a d n ;;
       if (x =? 1) || (x =? n - 1)
       then witnessLoop random n s d (S i) rounds'
       else
         passed <- squareLoop (Z.to_nat (s - 1)) x n ;;
         if passed : bool
         then witnessLoop random n s d (S i) rounds'
         else Returns false)%completion
  end.

Definition millerRabin (random : nat -> spec_float) (n : Z) (k : nat)
  : completion bool :=
  if (n =? 2) || (n =? 3) then Returns true
  else if (n <? 2) || (Z.rem n 2 =? 0) then Returns false
  else
    match factorTwos (bitlen (n - 1)) 0 (n - 1) with
    | None => Diverges
    | Some (s, d) => witnessLoop random n s d 0 k
    end.

(* ================================================================== *)
(** * JavaScript values read from a message *)
(* ================================================================== *)

(** The values [JSON.parse] can build, and [undefined].  An object is the
    list of its own properties, in insertion order. *)
#[warnings="-register-all"]
Inductive jsvalue : Type :=
| JUndefined
| JNull
| JBool (b : bool)
| JNumber (x : spec_float)
| JString (s : string)
| JArray (items : list jsvalue)
| JObject (props : list (string * jsvalue)).

Fixpoint own_property (props : list (string * jsvalue)) (key : string)
  : option jsvalue :=
  match props with
  | [] => None
  | (k, v) :: rest =>
      if String.eqb k key then Some v else own_property rest key
  end.

Definition has_own (props : list (string * jsvalue)) (key : string) : bool :=
  match own_property props key with Some _ => true | None => false end.

(** [data.hasOwnProperty("id")].  [null] has no properties; an object whose
    own property [hasOwnProperty] hides the inherited method holds a value
    read from JSON there, which cannot be called; the own properties of
    arrays and strings are their indices and [length]. *)
Definition hasOwnProperty_id (data : jsvalue) : completion bool :=
  match data with
  | JUndefined | JNull => Throws TypeError
  | JObject props =>
      if has_own props "hasOwnProperty" then Throws TypeError
      else Returns (has_own props "id")
  | _ => Returns false
  end.

(** [data.id] and [data.value]: the own property, and [undefined] when there
    is none (no prototype of these values defines [id] or [value]). *)
Definition get_field (data : jsvalue) (key : string) : completion jsvalue :=
  match data with
  | JUndefined | JNull => Throws TypeError
  | JObject props =>
      match own_property props key with
      | Some v => Returns v
      | None => Returns JUndefined
      end
  | _ => Returns JUndefined
  end.

Definition is_undefined (v : jsvalue) : bool :=
  match v with JUndefined => true | _ => false end.

(** Whether converting [v] to a string, as the template literal of
    [processMessage] does with [data.id], throws a TypeError: an object read
    from JSON with an own property [toString] has no callable conversion
    method left, and an array converts each of its elements. *)
Fixpoint ToString_throws (v : jsvalue) : bool :=
  match v with
  | JObject props => has_own props "toString"
  | JArray items => existsb ToString_throws items
  | _ => false
  end.

(* ================================================================== *)
(** * The outside world *)
(* ================================================================== *)

(** Handles of connections and queues, as the MQ library gives them. *)
Definition handle : Type := Z.

(** An error of the MQ library; the consumer reads its reason code. *)
Record MQError : Type := { mqcc : Z; mqrc : Z }.

(** Constants of the MQ library (MQC). *)
Definition MQRC_NO_MSG_AVAILABLE : Z := 2033.
Definition MQOO_INPUT_AS_Q_DEF : Z := 1.
Definition MQOO_OUTPUT : Z := 16.
Definition MQGMO_WAIT : Z := 1.
Definition MQGMO_CONVERT : Z := 16384.
Definition MQPMO_NO_SYNCPOINT : Z := 4.

(** The built-in functions the consumer calls and its configuration
    ([process.env.X || default]). *)
Record environment : Type := {
  JSON_parse : string -> completion jsvalue;
  JSON_stringify : jsvalue -> string;
  (** [BigInt(s)] for a string: its integer, or none (a SyntaxError). *)
  StringToBigInt : string -> option Z;
  (** [BigInt(o)] for an array or an object. *)
  BigInt_of_object : jsvalue -> completion Z;
  qMgr : string;
  inputQueueName : string;
  outputQueueName : string
}.

(** [BigInt(v)]. *)
Definition BigInt_of_value (E : environment) (v : jsvalue) : completion Z :=
  match v with
  | JUndefined | JNull => Throws TypeError
  | JBool b => Returns (if b then 1 else 0)
  | JNumber x => BigInt_of_Number x
  | JString s =>
      match StringToBigInt E s with
      | Some z => Returns z
      | None => Throws SyntaxError
      end
  | JArray _ | JObject _ => BigInt_of_object E v
  end.

(** The functions the consumer hands to the event loop and to the MQ
    library, with the variables they close over. *)
Inductive callback : Type :=
| cb_startConsumer
| cb_Connx
| cb_OpenInput (hConn : handle)
| cb_OpenOutput (hConn hIn : handle)
| cb_Disc
| cb_getMessage (hIn : handle).

(** The calls the consumer makes to the outside. *)
Inductive effect : Type :=
| console_log (text : string)
| console_error (text : string)
| mq_Connx (queueManager : string) (cb : callback)
| mq_Open (hConn : handle) (queue : string) (options : Z) (cb : callback)
| mq_Disc (hConn : handle) (cb : callback)
| mq_GetSync (hIn : handle) (options waitInterval : Z) (bufferLength : nat)
| mq_PutSync (hOut : handle) (options : Z) (payload : string)
| setTimeout (cb : callback) (delay : Z)
| setImmediate (cb : callback).

(** What the outside gives back during one unit of work: the result passed
    to a [Connx] or [Open] callback, the error passed to a [Disc] callback,
    what [GetSync] writes to the buffer and passes to its callback, the
    values of [Math.random()] and the error passed to the [PutSync]
    callback. *)
Record delivery : Type := {
  result : MQError + handle;
  discErr : option MQError;
  getErr : option MQError;
  getLen : Z;
  getData : list byte;
  random : nat -> spec_float;
  putErr : option MQError
}.

(* ================================================================== *)
(** * The monad of the consumer's code *)
(* ================================================================== *)

(** A computation reads and writes the global [outQueueHandle], makes calls
    to the outside and completes. *)
Definition js (A : Type) : Type :=
  option handle -> completion A * option handle * list effect.

Definition ret {A : Type} (a : A) : js A := fun g => (Returns a, g, []).

Definition bind {A B : Type} (m : js A) (k : A -> js B) : js B :=
  fun g =>
    match m g with
    | (Returns a, g1, t1) =>
        match k a g1 with (c, g2, t2) => (c, g2, t1 ++ t2) end
    | (Throws e, g1, t1) => (Throws e, g1, t1)
    | (Diverges, g1, t1) => (Diverges, g1, t1)
    end.

Definition emit (e : effect) : js unit := fun g => (Returns tt, g, [e]).

Definition lift {A : Type} (c : completion A) : js A := fun g => (c, g, []).

Definition try_catch {A : Type} (m : js A) (handler : js_error -> js A)
  : js A :=
  fun g =>
    match m g with
    | (Throws e, g1, t1) =>
        match handler e g1 with (c, g2, t2) => (c, g2, t1 ++ t2) end
    | r => r
    end.

Definition read_outQueueHandle : js (option handle) :=
  fun g => (Returns g, g, []).

Definition write_outQueueHandle (h : handle) : js unit :=
  fun _ => (Returns tt, Some h, []).

Declare Scope js_scope.
Delimit Scope js_scope with js.
Notation "x <- c ;; k" := (bind c (fun x => k))
  (at level 61, c at next level, right associativity) : js_scope.
Notation "c ;; k" := (bind c (fun _ => k))
  (at level 61, right associativity) : js_scope.

(* ================================================================== *)
(** * sendResponse and processMessage *)
(* ================================================================== *)

(** [Buffer.from(JSON.stringify(responseObj))]: [JSON.stringify(undefined)]
    is [undefined], which [Buffer.from] rejects. *)
Definition serialize (E : environment) (responseObj : jsvalue)
  : completion string :=
  match responseObj with
  | JUndefined => Throws TypeError
  | _ => Returns (JSON_stringify E responseObj)
  end.

Definition sendResponse (E : environment) (d : delivery)
                        (responseObj : jsvalue) : js unit :=
  (msgStr <- lift (serialize E responseObj) ;;
   h <- read_outQueueHandle ;;
   match h with
   | None =>
       emit (console_error
               "Output queue handle is not available. Cannot send response.")
   | Some hOut =>
       emit (mq_PutSync hOut MQPMO_NO_SYNCPOINT msgStr) ;;
       match putErr d with
       | Some _ => emit (console_error "Error putting message to output queue:")
       | None => emit (console_log "Response sent to ")
       end
   end)%js.

(** [msg.toString()]: the text of the bytes. *)
Definition Buffer_toString (msg : list byte) : string :=
  string_of_list_byte msg.

(** The object literal [{ id: data.id, value: data.value, prime: isPrime }]. *)
Definition response (id value : jsvalue) (isPrime : bool) : jsvalue :=
  JObject [("id"%string, id); ("value"%string, value);
           ("prime"%string, JBool isPrime)].

(** The body of the outer [try] block of [processMessage]. *)
Definition processMessage_body (E : environment) (d : delivery)
                               (msgText : string) : js unit :=
  (data <- lift (JSON_parse E msgText) ;;
   hasId <- lift (hasOwnProperty_id data) ;;
   missing <- (if negb hasId then ret true
               else v <- lift (get_field data "value") ;;
                    ret (is_undefined v)) ;;
   if missing : bool then
     emit (console_error "Message JSON missing required fields:")
   else
     dataValue <- lift (get_field data "value") ;;
     parsed <- try_catch
                 (value <- lift (BigInt_of_value E dataValue) ;;
                  ret (Some value))
                 (fun _ =>
                    emit (console_error "Invalid value in message:") ;;
                    ret None) ;;
     match parsed with
     | None => ret tt
     | Some value =>
         isPrime <- lift (millerRabin (random d) value 5) ;;
         dataId <- lift (get_field data "id") ;;
         lift (if ToString_throws dataId then Throws TypeError
               else Returns tt) ;;
         emit (console_log "Record ") ;;
         sendResponse E d (response dataId dataValue isPrime)
     end)%js.

Definition processMessage (E : environment) (d : delivery) (msg : list byte)
  : js unit :=
  (emit (console_log "Processing a message...") ;;
   let msgText := Buffer_toString msg in
   try_catch (processMessage_body E d msgText)
     (fun _ => emit (console_error "Error parsing JSON:")))%js.

(* ================================================================== *)
(** * startConsumer and the polling loop *)
(* ================================================================== *)

(** [Buffer.alloc(size)]. *)
Definition Buffer_alloc (size : nat) : list byte := repeat x00 size.

(** The buffer after the MQ library has written [data] at its start; what
    does not fit is not written. *)
Definition Buffer_write (buf data : list byte) : list byte :=
  firstn (List.length buf) (data ++ skipn (List.length data) buf)%list.

(** [buf.slice(0, end)]: a negative [end] counts from the end of the buffer,
    and [end] is clamped to the length of the buffer. *)
Definition Buffer_slice0 (buf : list byte) (stop : Z) : list byte :=
  let len := Z.of_nat (List.length buf) in
  let stop' := if stop <? 0 then Z.max (len + stop) 0 else Z.min stop len in
  firstn (Z.to_nat stop') buf.

(** The argument of [processMessage] in [getMessage]. *)
Definition msgBuffer (d : delivery) : list byte :=
  Buffer_slice0 (Buffer_write (Buffer_alloc 1024) (getData d)) (getLen d).

Definition getMessage (E : environment) (hIn : handle) (d : delivery)
  : js unit :=
  (emit (console_log "Polling for a message...") ;;
   emit (mq_GetSync hIn (Z.lor MQGMO_WAIT MQGMO_CONVERT) 3000
           (List.length (Buffer_alloc 1024))) ;;
   match getErr d with
   | Some err =>
       if mqrc err =? MQRC_NO_MSG_AVAILABLE then
         emit (console_log "No message available. Polling again...") ;;
         emit (setImmediate (cb_getMessage hIn))
       else
         emit (console_error "Error getting message:")
   | None =>
       emit (console_log "Message received, length: ") ;;
       processMessage E d (msgBuffer d) ;;
       emit (setImmediate (cb_getMessage hIn))
   end)%js.

Definition startConsumer (E : environment) : js unit :=
  (emit (console_log "Starting consumer...") ;;
   emit (mq_Connx (qMgr E) cb_Connx))%js.

(** The three error branches: log, (disconnect,) log and retry. *)
Definition Connx_callback (E : environment) (d : delivery) : js unit :=
  match result d with
  | inl _ =>
      (emit (console_error "Error connecting to MQ:") ;;
       emit (console_log "Retrying connection in 5 seconds...") ;;
       emit (setTimeout cb_startConsumer 5000))%js
  | inr hConn =>
      (emit (console_log "Connected to queue manager ") ;;
       emit (mq_Open hConn (inputQueueName E)
               (Z.lor MQOO_INPUT_AS_Q_DEF MQOO_OUTPUT) (cb_OpenInput hConn)))%js
  end.

Definition OpenInput_callback (E : environment) (hConn : handle)
                              (d : delivery) : js unit :=
  match result d with
  | inl _ =>
      (emit (console_error "Error opening input queue:") ;;
       emit (mq_Disc hConn cb_Disc) ;;
       emit (console_log "Retrying connection in 5 seconds...") ;;
       emit (setTimeout cb_startConsumer 5000))%js
  | inr hIn =>
      (emit (console_log "Input queue opened.") ;;
       emit (mq_Open hConn (outputQueueName E) MQOO_OUTPUT
               (cb_OpenOutput hConn hIn)))%js
  end.

Definition OpenOutput_callback (E : environment) (hConn hIn : handle)
                               (d : delivery) : js unit :=
  match result d with
  | inl _ =>
      (emit (console_error "Error opening output queue:") ;;
       emit (mq_Disc hConn cb_Disc) ;;
       emit (console_log "Retrying connection in 5 seconds...") ;;
       emit (setTimeout cb_startConsumer 5000))%js
  | inr hOut =>
      (emit (console_log "Output queue opened.") ;;
       write_outQueueHandle hOut ;;
       getMessage E hIn d)%js
  end.

Definition Disc_callback (d : delivery) : js unit :=
  match discErr d with
  | Some _ => emit (console_error "Disconnect error:")
  | None => ret tt
  end.

(* ================================================================== *)
(** * The event loop *)
(* ================================================================== *)

Definition run_callback (E : environment) (cb : callback) (d : delivery)
  : js unit :=
  match cb with
  | cb_startConsumer => startConsumer E
  | cb_Connx => Connx_callback E d
  | cb_OpenInput hConn => OpenInput_callback E hConn d
  | cb_OpenOutput hConn hIn => OpenOutput_callback E hConn hIn d
  | cb_Disc => Disc_callback d
  | cb_getMessage hIn => getMessage E hIn d
  end.

(** The callbacks a unit of work leaves with the event loop and the MQ
    library. *)
Fixpoint scheduled (t : list effect) : list callback :=
  match t with
  | [] => []
  | setTimeout cb _ :: t' => cb :: scheduled t'
  | setImmediate cb :: t' => cb :: scheduled t'
  | mq_Connx _ cb :: t' => cb :: scheduled t'
  | mq_Open _ _ _ cb :: t' => cb :: scheduled t'
  | mq_Disc _ cb :: t' => cb :: scheduled t'
  | _ :: t' => scheduled t'
  end.

Definition callback_eqb (a b : callback) : bool :=
  match a, b with
  | cb_startConsumer, cb_startConsumer => true
  | cb_Connx, cb_Connx => true
  | cb_OpenInput h, cb_OpenInput h' => h =? h'
  | cb_OpenOutput h i, cb_OpenOutput h' i' => (h =? h') && (i =? i')
  | cb_Disc, cb_Disc => true
  | cb_getMessage h, cb_getMessage h' => h =? h'
  | _, _ => false
  end.

Fixpoint remove_first (cb : callback) (l : list callback) : list callback :=
  match l with
  | [] => []
  | x :: l' => if callback_eqb cb x then l' else x :: remove_first cb l'
  end.

(** The process: its global variable, the callbacks that are pending, all
    the calls made so far, and whether an exception escaped a callback. *)
Record process : Type := {
  outQueueHandle : option handle;
  pending : list callback;
  trace : list effect;
  crashed : bool
}.

(** The module body runs [startConsumer()] once. *)
Definition start (E : environment) : process :=
  match startConsumer E None with
  | (c, g, t) =>
      {| outQueueHandle := g; pending := scheduled t; trace := t;
         crashed := match c with Returns _ => false | _ => true end |}
  end.

(** One turn of the event loop: the pending callback [cb] is called with
    what the outside delivers.  Nothing runs once the process has crashed,
    and a callback that is not pending is not called. *)
Definition step (E : environment) (p : process) (cb : callback)
                (d : delivery) : option process :=
  if crashed p then None
  else if existsb (callback_eqb cb) (pending p) then
    match run_callback E cb d (outQueueHandle p) with
    | (c, g, t) =>
        Some {| outQueueHandle := g;
                pending := remove_first cb (pending p) ++ scheduled t;
                trace := trace p ++ t;
                crashed := match c with Returns _ => false | _ => true end |}
    end
  else None.

(** A run: the turns taken one after the other; a turn that cannot be taken
    leaves the process as it is. *)
Fixpoint run (E : environment) (p : process)
             (turns : list (callback * delivery)) : process :=
  match turns with
  | [] => p
  | (cb, d) :: rest =>
      match step E p cb d with
      | Some p' => run E p' rest
      | None => run E p rest
      end
  end.

(* ================================================================== *)
(** * Notions used in the statements *)
(* ================================================================== *)

(** The receive found no message within the wait interval. *)
Definition is_no_message (d : delivery) : bool :=
  match getErr d with
  | Some err => mqrc err =? MQRC_NO_MSG_AVAILABLE
  | None => false
  end.

(** The receive failed for another reason. *)
Definition is_receive_fault (d : delivery) : bool :=
  match getErr d with
  | Some err => negb (mqrc err =? MQRC_NO_MSG_AVAILABLE)
  | None => false
  end.

(** The connect or open call failed. *)
Definition is_failure (d : delivery) : bool :=
  match result d with inl _ => true | inr _ => false end.

(** Number of receives issued, and of connection attempts made, in a trace. *)
Fixpoint receives (t : list effect) : nat :=
  match t with
  | [] => O
  | mq_GetSync _ _ _ _ :: t' => S (receives t')
  | _ :: t' => receives t'
  end.

Fixpoint connects (t : list effect) : nat :=
  match t with
  | [] => O
  | mq_Connx _ _ :: t' => S (connects t')
  | _ :: t' => connects t'
  end.

Definition is_put (e : effect) : bool :=
  match e with mq_PutSync _ _ _ => true | _ => false end.

(** A parsed message without an [id] property. *)
Definition lacks_id (data : jsvalue) : bool :=
  match data with
  | JObject props => negb (has_own props "id")
  | _ => true
  end.

(** A parsed message whose [value] property is undefined. *)
Definition value_undefined (data : jsvalue) : bool :=
  match get_field data "value" with
  | Returns v => is_undefined v
  | _ => false
  end.

(** A parsed message whose [value] does not convert to a BigInt. *)
Definition value_unparsable (E : environment) (data : jsvalue) : bool :=
  match get_field data "value" with
  | Returns v =>
      match BigInt_of_value E v with Throws _ => true | _ => false end
  | _ => false
  end.

(** Trial division, to show that a number is prime. *)
Definition no_divisor (n : Z) : bool :=
  forallb (fun k => negb (n mod (Z.of_nat k + 2) =? 0))
          (seq 0 (Z.to_nat (n - 2))).

(** ** An environment and deliveries to run the consumer on *)

(** Value of a string of decimal digits. *)
Fixpoint decimal_value (acc : Z) (s : string) : option Z :=
  match s with
  | EmptyString => Some acc
  | String c rest =>
      let n := Z.of_nat (nat_of_ascii c) in
      if (48 <=? n) && (n <=? 57)
      then decimal_value (10 * acc + (n - 48)) rest
      else None
  end.

Definition example_record : jsvalue :=
  JObject [("id"%string, JNumber (Number_of_BigInt 1));
           ("value"%string, JString "97")].

(** An environment that parses every text to [example_record]. *)
Definition example_environment : environment :=
  {| JSON_parse := fun _ => Returns example_record;
     JSON_stringify := fun v =>
       match v with
       | JObject [(_, _); (_, JString s); (_, JBool b)] =>
           (s ++ (if b then " prime" else " composite"))%string
       | _ => EmptyString
       end;
     StringToBigInt := decimal_value 0;
     BigInt_of_object := fun _ => Throws SyntaxError;
     qMgr := "QM1";
     inputQueueName := "DEV.QUEUE.1";
     outputQueueName := "DEV.QUEUE.2" |}.

(** A delivery: the call succeeded with handle 7, a message of three bytes
    arrived, [Math.random()] returns 0 and the put succeeds. *)
Definition example_delivery : delivery :=
  {| result := inr 7;
     discErr := None;
     getErr := None;
     getLen := 3;
     getData := [x7b; x7d; x0a];
     random := fun _ => S754_zero false;
     putErr := None |}.

Definition no_message_delivery : delivery :=
  {| result := inr 7;
     discErr := None;
     getErr := Some {| mqcc := 2; mqrc := 2033 |};
     getLen := 0;
     getData := [];
     random := fun _ => S754_zero false;
     putErr := None |}.

Definition failed_delivery : delivery :=
  {| result := inl {| mqcc := 2; mqrc := 2538 |};
     discErr := None;
     getErr := Some {| mqcc := 2; mqrc := 2009 |};
     getLen := 0;
     getData := [];
     random := fun _ => S754_zero false;
     putErr := None |}.

(** ** Notions used in the proofs about rounding *)

(** Number of bits of a mantissa. *)
Definition dg (m : positive) : Z := Zpos (digits2_pos m).

(** Rounding [m / 2^k] to an integer: down, or up when the remainder is at
    least one half. *)
Definition rounds_to (m k q : Z) : Prop :=
  q = m / 2 ^ k \/ (q = m / 2 ^ k + 1 /\ 2 ^ (k - 1) <= m mod 2 ^ k).

(** The float made of the rounded mantissa [q] at exponent [E]: the second
    normalisation step of [binary_round_aux] and its overflow test. *)
Definition pack (q E : Z) : spec_float :=
  match q with
  | Zpos p =>
      if q <? 2 ^ 53
      then if E <=? 971 then S754_finite false p E else S754_infinity false
      else if E + 1 <=? 971
           then S754_finite false 4503599627370496 (E + 1)
           else S754_infinity false
  | _ => S754_zero false
  end.

(** Value of a finite positive float in units of [2^-1074]. *)
Definition val (m : positive) (e : Z) : Z := Zpos m * 2 ^ (e + 1074).

(** ** More inputs to run the consumer on *)

(** The largest double below 1. *)
Definition almost_one : spec_float :=
  S754_finite false 9007199254740991 (-53).

(** A process that has opened its queues and waits for its next poll. *)
Definition polling_process : process :=
  {| outQueueHandle := Some 9; pending := [cb_getMessage 7]; trace := [];
     crashed := false |}.

(** An environment that parses every text to a record without [id]. *)
Definition malformed_environment : environment :=
  {| JSON_parse := fun _ => Returns (JObject [("value"%string, JString "97")]);
     JSON_stringify := JSON_stringify example_environment;
     StringToBigInt := decimal_value 0;
     BigInt_of_object := fun _ => Throws SyntaxError;
     qMgr := "QM1";
     inputQueueName := "DEV.QUEUE.1";
     outputQueueName := "DEV.QUEUE.2" |}.

(* ================================================================== *)
(** * JSON texts *)
(* ================================================================== *)

(** The part of [JSON.parse] and [JSON.stringify] that is modelled here is
    the one over ASCII texts whose numbers are integer literals and, on the
    way out, integers of magnitude up to [2^53]; whatever lies outside is
    marked as such and left to the environment. *)

Definition quote : ascii := "034"%char.
Definition backslash : ascii := "092"%char.

Definition code (c : ascii) : N := N_of_ascii c.

Definition is_digit (c : ascii) : bool :=
  ((48 <=? code c) && (code c <=? 57))%N.

(** The white space of the JSON grammar: tab, line feed, carriage return
    and space. *)
Definition is_whitespace (c : ascii) : bool :=
  ((code c =? 9) || (code c =? 10) || (code c =? 13) || (code c =? 32))%N.

Definition is_ascii (c : ascii) : bool := (code c <? 128)%N.


Definition digits_value (s : string) : option N :=
  option_map N.of_uint (DecimalString.NilEmpty.uint_of_string s).

(** What reading a piece of a text gives: a value and the rest of the
    text, a SyntaxError, or a text outside the modelled part. *)
Inductive parsed (A : Type) : Type :=
| Parsed (a : A) (rest : string)
| Malformed
| Unmodelled.

Arguments Parsed {A} a rest.
Arguments Malformed {A}.
Arguments Unmodelled {A}.

Section JSON.

Local Open Scope string_scope.

Definition parsed_map {A B : Type} (f : A -> B) (p : parsed A) : parsed B :=
  match p with
  | Parsed a rest => Parsed (f a) rest
  | Malformed => Malformed
  | Unmodelled => Unmodelled
  end.

Fixpoint skip_whitespace (s : string) : string :=
  match s with
  | String c rest => if is_whitespace c then skip_whitespace rest else s
  | EmptyString => s
  end.

(** The character an escape sequence stands for; [\uXXXX] is not
    modelled. *)
Definition unescape (e : ascii) : parsed ascii :=
  if Ascii.eqb e quote then Parsed quote EmptyString
  else if Ascii.eqb e backslash then Parsed backslash EmptyString
  else if Ascii.eqb e "/" then Parsed "/"%char EmptyString
  else if Ascii.eqb e "b" then Parsed "008"%char EmptyString
  else if Ascii.eqb e "f" then Parsed "012"%char EmptyString
  else if Ascii.eqb e "n" then Parsed "010"%char EmptyString
  else if Ascii.eqb e "r" then Parsed "013"%char EmptyString
  else if Ascii.eqb e "t" then Parsed "009"%char EmptyString
  else if Ascii.eqb e "u" then Unmodelled
  else Malformed.

(** A string literal, read from after its opening quote. *)
Fixpoint lex_string (s : string) : parsed string :=
  match s with
  | EmptyString => Malformed
  | String c rest =>
      if Ascii.eqb c quote then Parsed EmptyString rest
      else if negb (is_ascii c) then Unmodelled
      else if (code c <? 32)%N then Malformed
      else if Ascii.eqb c backslash then
        match rest with
        | EmptyString => Malformed
        | String e rest' =>
            match unescape e with
            | Parsed c' _ => parsed_map (String c') (lex_string rest')
            | Malformed => Malformed
            | Unmodelled => Unmodelled
            end
        end
      else parsed_map (String c) (lex_string rest)
  end.

Fixpoint span_digits (s : string) : string * string :=
  match s with
  | String c rest =>
      if is_digit c
      then let (ds, r) := span_digits rest in (String c ds, r)
      else (EmptyString, s)
  | EmptyString => (EmptyString, EmptyString)
  end.

(** A number literal: an optional minus sign and an integer without
    leading zeros; the Number is the nearest double.  Fractions and
    exponents are not modelled. *)
Definition lex_number (s : string) : parsed spec_float :=
  let (negative, s1) :=
    match s with
    | String c r => if Ascii.eqb c "-" then (true, r) else (false, s)
    | EmptyString => (false, s)
    end in
  let (ds, rest) := span_digits s1 in
  let continues :=
    match rest with
    | String c _ => Ascii.eqb c "." || Ascii.eqb c "e" || Ascii.eqb c "E"
    | EmptyString => false
    end in
  match ds with
  | EmptyString => Malformed
  | String d more =>
      if Ascii.eqb d "0" && negb (String.eqb more EmptyString) then Malformed
      else if continues then Unmodelled
      else
        match digits_value ds with
        | Some N0 => Parsed (S754_zero negative) rest
        | Some n =>
            Parsed (Number_of_BigInt (if negative then - Z.of_N n else Z.of_N n))
                   rest
        | None => Unmodelled
        end
  end.

(** [CreateDataProperty] on an object under construction: a key met again
    keeps its place and takes the new value. *)
Fixpoint set_property (props : list (string * jsvalue)) (key : string)
                      (v : jsvalue) : list (string * jsvalue) :=
  match props with
  | [] => [(key, v)]
  | (k, old) :: rest =>
      if String.eqb k key then (k, v) :: rest
      else (k, old) :: set_property rest key v
  end.

(** Keys that look like array indices are listed first by the engine; no
    key starting with a digit is modelled. *)
Definition index_like (key : string) : bool :=
  match key with
  | String c _ => is_digit c
  | EmptyString => false
  end.

(** After a value: the failure on a character that cannot follow. *)
Definition unexpected {A : Type} (s : string) : parsed A :=
  match s with
  | String c _ => if is_ascii c then Malformed else Unmodelled
  | EmptyString => Malformed
  end.

(** The members of an object, read from after [{] or [,]; [fuel] bounds
    their number. *)
Fixpoint parse_members (parse_value : string -> parsed jsvalue) (fuel : nat)
                       (acc : list (string * jsvalue)) (s : string)
  : parsed jsvalue :=
  match fuel with
  | O => Unmodelled
  | S fuel' =>
      match skip_whitespace s with
      | String c rest =>
          if Ascii.eqb c quote then
            match lex_string rest with
            | Parsed key rest1 =>
                if index_like key then Unmodelled
                else
                  match skip_whitespace rest1 with
                  | String c1 rest2 =>
                      if Ascii.eqb c1 ":" then
                        match parse_value rest2 with
                        | Parsed v rest3 =>
                            let acc' := set_property acc key v in
                            match skip_whitespace rest3 with
                            | String c3 rest4 =>
                                if Ascii.eqb c3 "," then
                                  parse_members parse_value fuel' acc' rest4
                                else if Ascii.eqb c3 "}" then
                                  Parsed (JObject acc') rest4
                                else unexpected (String c3 rest4)
                            | EmptyString => Malformed
                            end
                        | Malformed => Malformed
                        | Unmodelled => Unmodelled
                        end
                      else unexpected (String c1 rest2)
                  | EmptyString => Malformed
                  end
            | Malformed => Malformed
            | Unmodelled => Unmodelled
            end
          else unexpected (String c rest)
      | EmptyString => Malformed
      end
  end.

(** The elements of an array, read from after [[] or [,]. *)
Fixpoint parse_elements (parse_value : string -> parsed jsvalue) (fuel : nat)
                        (acc : list jsvalue) (s : string) : parsed jsvalue :=
  match fuel with
  | O => Unmodelled
  | S fuel' =>
      match parse_value s with
      | Parsed v rest1 =>
          let acc' := (acc ++ [v])%list in
          match skip_whitespace rest1 with
          | String c rest2 =>
              if Ascii.eqb c "," then parse_elements parse_value fuel' acc' rest2
              else if Ascii.eqb c "]" then Parsed (JArray acc') rest2
              else unexpected (String c rest2)
          | EmptyString => Malformed
          end
      | Malformed => Malformed
      | Unmodelled => Unmodelled
      end
  end.

(** A literal name. *)
Definition lex_name (name : string) (v : jsvalue) (s : string) : parsed jsvalue :=
  if String.prefix name s
  then Parsed v (String.substring (String.length name)
                                  (String.length s - String.length name) s)
  else Malformed.

(** A JSON value; [fuel] bounds the depth of nesting. *)
Fixpoint parse_value (fuel : nat) (s : string) : parsed jsvalue :=
  match fuel with
  | O => Unmodelled
  | S fuel' =>
      match skip_whitespace s with
      | EmptyString => Malformed
      | String c rest =>
          if Ascii.eqb c "{" then
            match skip_whitespace rest with
            | String c1 rest1 =>
                if Ascii.eqb c1 "}" then Parsed (JObject []) rest1
                else parse_members (parse_value fuel') (String.length rest) [] rest
            | EmptyString => Malformed
            end
          else if Ascii.eqb c "[" then
            match skip_whitespace rest with
            | String c1 rest1 =>
                if Ascii.eqb c1 "]" then Parsed (JArray []) rest1
                else parse_elements (parse_value fuel') (String.length rest) [] rest
            | EmptyString => Malformed
            end
          else if Ascii.eqb c quote then parsed_map JString (lex_string rest)
          else if Ascii.eqb c "-" || is_digit c then
            parsed_map JNumber (lex_number (String c rest))
          else if Ascii.eqb c "t" then lex_name "true" (JBool true) (String c rest)
          else if Ascii.eqb c "f" then lex_name "false" (JBool false) (String c rest)
          else if Ascii.eqb c "n" then lex_name "null" JNull (String c rest)
          else unexpected (String c rest)
      end
  end.


(** ** JSON.stringify *)












End JSON.




(** A delivery of a message of 1500 bytes, longer than the buffer. *)
Definition long_delivery : delivery :=
  {| result := inr 7;
     discErr := None;
     getErr := None;
     getLen := 1500;
     getData := repeat x41 1500;
     random := fun _ => S754_zero false;
     putErr := None |}.

(** ** Notions used in the statements about whole runs *)

(** The built-ins of the environment that run JavaScript of the message's
    making never loop: [JSON.parse] and [BigInt] on an object. *)
Definition builtins_terminate (E : environment) : Prop :=
  (forall text, JSON_parse E text <> Diverges) /\
  (forall v, BigInt_of_object E v <> Diverges).

(** The line [sendResponse] logs when [outQueueHandle] is not set. *)
Definition handle_unavailable : effect :=
  console_error "Output queue handle is not available. Cannot send response.".

(** Number of messages put in a trace. *)
Fixpoint puts (t : list effect) : nat :=
  match t with
  | [] => O
  | mq_PutSync _ _ _ :: t' => S (puts t')
  | _ :: t' => puts t'
  end.

(** No reply was lost for want of the handle so far, and a poller is
    pending only when the handle is set. *)
Definition handle_safe (p : process) : Prop :=
  ~ In handle_unavailable (trace p) /\
  (forall hIn, In (cb_getMessage hIn) (pending p) -> outQueueHandle p <> None).

(** An environment like [example_environment] whose [JSON.parse] completes
    with [parsed] on every text. *)
Definition environment_reading (parsed : completion jsvalue) : environment :=
  {| JSON_parse := fun _ => parsed;
     JSON_stringify := JSON_stringify example_environment;
     StringToBigInt := decimal_value 0;
     BigInt_of_object := fun _ => Throws SyntaxError;
     qMgr := "QM1";
     inputQueueName := "DEV.QUEUE.1";
     outputQueueName := "DEV.QUEUE.2" |}.

(** The decimal digits of [2^1024 + 5]. *)
Definition beyond_doubles : string :=
  "179769313486231590772930519078902473361797697894230657273430081157732675805500963132708477322407536021120113879871393357658789768814416622492847430639474124377767893424865485276302219601246094119453082952085005768838150682342462881473913110540827237163350510684586298239947245938479716304835356329624224137221".

(** A record with the given [id] and [value]. *)
Definition record_of (id value : jsvalue) : jsvalue :=
  JObject [("id"%string, id); ("value"%string, value)].

(** A delivery whose call succeeded with handle [h] and whose receive found
    no message. *)
Definition opened (h : handle) : delivery :=
  {| result := inr h;
     discErr := None;
     getErr := Some {| mqcc := 2; mqrc := 2033 |};
     getLen := 0;
     getData := [];
     random := fun _ => S754_zero false;
     putErr := None |}.

(* ================================================================== *)
(** * Rounding of binary64 floats *)
(* ================================================================== *)

Lemma dg_bounds m : 2 ^ (dg m - 1) <= Zpos m < 2 ^ dg m.
Proof.
  unfold dg. induction m as [m IH|m IH|]; cbn [digits2_pos].
  - rewrite Pos2Z.inj_succ. change (Zpos m~1) with (2 * Zpos m + 1).
    replace (Z.succ (Zpos (digits2_pos m)) - 1) with (Z.succ (Zpos (digits2_pos m) - 1)) by lia.
    rewrite !Z.pow_succ_r by lia.
    generalize dependent (2 ^ (Zpos (digits2_pos m) - 1)).
    generalize dependent (2 ^ Zpos (digits2_pos m)). intros; lia.
  - rewrite Pos2Z.inj_succ. change (Zpos m~0) with (2 * Zpos m).
    replace (Z.succ (Zpos (digits2_pos m)) - 1) with (Z.succ (Zpos (digits2_pos m) - 1)) by lia.
    rewrite !Z.pow_succ_r by lia.
    generalize dependent (2 ^ (Zpos (digits2_pos m) - 1)).
    generalize dependent (2 ^ Zpos (digits2_pos m)). intros; lia.
  - simpl. lia.
Qed.

Lemma dg_pos m : 1 <= dg m.
Proof. unfold dg. lia. Qed.

Lemma dg_unique m k : 2 ^ (k - 1) <= Zpos m < 2 ^ k -> dg m = k.
Proof.
  intros [Hlo Hhi]. pose proof (dg_bounds m) as [Dlo Dhi]. pose proof (dg_pos m).
  assert (0 <= k) by (destruct (Z.ltb_spec k 0); [rewrite Z.pow_neg_r in Hhi; lia | lia]).
  assert (dg m - 1 < k) by (apply (Z.pow_lt_mono_r_iff 2); lia).
  assert (k - 1 < dg m).
  { destruct (Z.eq_dec k 0) as [->|]; [lia|]. apply (Z.pow_lt_mono_r_iff 2); lia. }
  lia.
Qed.

Lemma dg_le_of_lt m k : 0 <= k -> Zpos m < 2 ^ k -> dg m <= k.
Proof.
  intros Hk H. pose proof (dg_bounds m) as [Dlo _]. pose proof (dg_pos m).
  assert (dg m - 1 < k) by (apply (Z.pow_lt_mono_r_iff 2); lia). lia.
Qed.

Lemma dg_ge_of_le m k : 2 ^ (k - 1) <= Zpos m -> k <= dg m.
Proof.
  intros H. pose proof (dg_bounds m) as [_ Dhi]. pose proof (dg_pos m).
  destruct (Z.leb_spec k 1); [lia|].
  assert (k - 1 < dg m) by (apply (Z.pow_lt_mono_r_iff 2); lia). lia.
Qed.

Lemma fexp_eq e : fexp prec emax e = Z.max (e - 53) (-1074).
Proof. reflexivity. Qed.

Lemma iter_pos_iter {A} (f : A -> A) p x : iter_pos f p x = Pos.iter f x p.
Proof.
  revert x. induction p as [p IH|p IH|]; intros x; cbn [iter_pos Pos.iter].
  - rewrite !IH. now rewrite <- !Pos.iter_swap.
  - now rewrite !IH.
  - reflexivity.
Qed.

Lemma shr_1_nonneg m r s :
  0 <= m ->
  shr_1 (Build_shr_record m r s) = Build_shr_record (Z.div2 m) (Z.odd m) (r || s).
Proof.
  intros H. destruct m as [|[p|p|]|p]; try lia; reflexivity.
Qed.

(** After [p] one-bit shifts, the mantissa is the quotient by [2^p] and
    the round bit is the last bit shifted out. *)
Lemma iter_shr_1 m p :
  0 <= m ->
  let mrs := iter_pos shr_1 p (Build_shr_record m false false) in
  shr_m mrs = m / 2 ^ Zpos p /\ shr_r mrs = Z.odd (m / 2 ^ (Zpos p - 1)).
Proof.
  intros Hm mrs. subst mrs. rewrite iter_pos_iter.
  apply (Pos.iter_ind _ shr_1 (Build_shr_record m false false)
           (fun p mrs => shr_m mrs = m / 2 ^ Zpos p /\
                         shr_r mrs = Z.odd (m / 2 ^ (Zpos p - 1)))).
  - rewrite shr_1_nonneg by lia. cbn [shr_m shr_r].
    rewrite Z.div2_div. change (2 ^ (1 - 1)) with 1. rewrite Z.div_1_r. auto.
  - intros q [mq rq sq]. cbn [shr_m shr_r]. intros [-> ->].
    rewrite shr_1_nonneg by (apply Z.div_pos; lia). cbn [shr_m shr_r].
    rewrite Pos2Z.inj_succ. replace (Z.succ (Zpos q) - 1) with (Zpos q) by lia.
    split; [|reflexivity].
    rewrite Z.div2_div, Z.pow_succ_r by lia.
    rewrite Z.div_div by lia. f_equal. lia.
Qed.

Lemma odd_div_mod m j :
  0 <= m -> 1 <= j -> Z.odd (m / 2 ^ (j - 1)) = true -> 2 ^ (j - 1) <= m mod 2 ^ j.
Proof.
  intros Hm Hj Ho.
  replace j with (Z.succ (j - 1)) at 2 by lia.
  rewrite Z.pow_succ_r by lia.
  set (t := 2 ^ (j - 1)) in *. assert (0 < t) by (apply Z.pow_pos_nonneg; lia).
  rewrite (Z.mul_comm 2 t), Z.rem_mul_r by lia.
  rewrite Zmod_odd, Ho.
  pose proof (Z.mod_pos_bound m t). lia.
Qed.

Lemma round_nearest_even_cases mrs :
  let q := round_nearest_even (shr_m mrs) (loc_of_shr_record mrs) in
  q = shr_m mrs \/ (q = shr_m mrs + 1 /\ shr_r mrs = true).
Proof.
  destruct mrs as [m [|] [|]]; cbn; auto.
  destruct (Z.even m); auto.
Qed.

Lemma shr_rounds_to m e k :
  0 <= m -> 1 <= k ->
  let '(mrs, e') := shr (Build_shr_record m false false) e k in
  e' = e + k /\
  rounds_to m k (round_nearest_even (shr_m mrs) (loc_of_shr_record mrs)).
Proof.
  intros Hm Hk. destruct k as [|p|p]; try lia. cbn [shr].
  split; [reflexivity|].
  pose proof (iter_shr_1 m p Hm) as [Hq Hr]. cbv zeta in Hq, Hr.
  destruct (round_nearest_even_cases (iter_pos shr_1 p (Build_shr_record m false false)))
    as [E|[E R]]; cbv zeta in E; rewrite E, Hq.
  - left; reflexivity.
  - right; split; [reflexivity|]. apply odd_div_mod; try lia. congruence.
Qed.

Lemma shr_id mrs e k : k <= 0 -> shr mrs e k = (mrs, e).
Proof. destruct k; try lia; reflexivity. Qed.

Lemma pow2_53 : 2 ^ 53 = 9007199254740992.
Proof. reflexivity. Qed.
Lemma pow2_52 : 2 ^ 52 = 4503599627370496.
Proof. reflexivity. Qed.

Lemma div_pow2_lt m a k : 0 <= k -> 0 <= a -> 0 <= m < 2 ^ (a + k) -> m / 2 ^ k < 2 ^ a.
Proof.
  intros Hk Ha Hm. apply Z.div_lt_upper_bound; [apply Z.pow_pos_nonneg; lia|].
  rewrite <- Z.pow_add_r by lia. now rewrite Z.add_comm.
Qed.

Lemma div_pow2_ge m a k : 0 <= k -> 0 <= a -> 2 ^ (a + k) <= m -> 2 ^ a <= m / 2 ^ k.
Proof.
  intros Hk Ha Hm. apply Z.div_le_lower_bound; [apply Z.pow_pos_nonneg; lia|].
  rewrite <- Z.pow_add_r by lia. now rewrite Z.add_comm.
Qed.

Lemma binary_round_aux_cases mx ex :
  let E := Z.max (dg mx + ex - 53) (-1074) in
  ex <= E ->
  exists q,
    0 <= q <= 2 ^ 53 /\
    (E = dg mx + ex - 53 -> 2 ^ 52 <= q) /\
    (E = ex -> q = Zpos mx) /\
    (ex < E -> rounds_to (Zpos mx) (E - ex) q) /\
    binary_round_aux prec emax false (Zpos mx) ex loc_Exact = pack q E.
Proof.
  intros E HE. pose proof (dg_bounds mx) as [Dlo Dhi]. pose proof (dg_pos mx) as Dpos.
  unfold binary_round_aux, shr_fexp. cbn [Zdigits2 shr_record_of_loc].
  fold (dg mx). rewrite fexp_eq. fold E.
  destruct (Z.eq_dec E ex) as [Heq|Hne].
  - (* no bit is shifted out *)
    rewrite shr_id by lia. cbn [shr_m loc_of_shr_record round_nearest_even Zdigits2 shr_record_of_loc].
    fold (dg mx). rewrite fexp_eq. fold E. rewrite shr_id by lia. cbn [shr_m].
    assert (Hd : dg mx <= 53) by lia.
    assert (Hlt : Zpos mx < 2 ^ 53).
    { eapply Z.lt_le_trans; [exact Dhi|]. apply Z.pow_le_mono_r; lia. }
    exists (Zpos mx). split; [lia|]. split; [|split; [reflexivity|split; [lia|]]].
    + intros HEd. assert (dg mx = 53) by lia.
      replace 52 with (dg mx - 1) by lia. exact Dlo.
    + unfold pack. destruct (Z.ltb_spec (Zpos mx) (2 ^ 53)); [|lia].
      rewrite Heq. reflexivity.
  - assert (Hk : 1 <= E - ex) by lia.
    pose proof (shr_rounds_to (Zpos mx) ex (E - ex) ltac:(lia) Hk) as Hshr.
    destruct (shr (Build_shr_record (Zpos mx) false false) ex (E - ex)) as [mrs e'].
    destruct Hshr as [He' Hr].
    set (q := round_nearest_even (shr_m mrs) (loc_of_shr_record mrs)) in *.
    replace e' with E by lia.
    assert (Hq0 : 0 <= Zpos mx / 2 ^ (E - ex)) by (apply Z.div_pos; [lia|apply Z.pow_pos_nonneg; lia]).
    assert (Hq1 : Zpos mx / 2 ^ (E - ex) < 2 ^ 53).
    { apply div_pow2_lt; try lia. split; [lia|].
      eapply Z.lt_le_trans; [exact Dhi|]. apply Z.pow_le_mono_r; lia. }
    assert (Hq : 0 <= q <= 2 ^ 53) by (destruct Hr as [->|[-> _]]; lia).
    assert (Hcanon : E = dg mx + ex - 53 -> 2 ^ 52 <= q).
    { intros HEd.
      assert (2 ^ 52 <= Zpos mx / 2 ^ (E - ex)).
      { apply div_pow2_ge; try lia. replace (52 + (E - ex)) with (dg mx - 1) by lia. exact Dlo. }
      destruct Hr as [->|[-> _]]; lia. }
    exists q. split; [assumption|]. split; [assumption|].
    split; [lia|]. split; [intros; assumption|].
    + (* the second normalisation *)
      destruct q as [|p|p] eqn:Eq; try lia.
      * cbn [Zdigits2]. rewrite fexp_eq. rewrite shr_id by lia. reflexivity.
      * cbn [Zdigits2]. fold (dg p). rewrite fexp_eq.
        pose proof (dg_bounds p) as [Plo Phi].
        destruct (Z.ltb_spec (Zpos p) (2 ^ 53)) as [Hlt|Hge].
        -- assert (dg p <= 53) by (apply dg_le_of_lt; lia).
           rewrite shr_id by lia. cbn [shr_m shr_record_of_loc]. unfold pack.
           destruct (Z.ltb_spec (Zpos p) (2 ^ 53)); [|lia]. reflexivity.
        -- assert (Hp : Zpos p = 2 ^ 53) by lia.
           rewrite pow2_53 in Hp. injection Hp as ->.
           replace (Z.max (dg 9007199254740992 + E - 53) (-1074) - E) with 1
             by (change (dg 9007199254740992) with 54; lia).
           cbn [shr iter_pos shr_record_of_loc shr_1 shr_m]. unfold pack.
           change (Zpos 9007199254740992 <? 2 ^ 53) with false. cbv iota.
           reflexivity.
Qed.

Lemma bounded_inv m e :
  bounded prec emax m e = true ->
  Z.max (dg m + e - 53) (-1074) = e /\ e <= 971 /\ dg m <= 53 /\ Zpos m < 2 ^ 53.
Proof.
  unfold bounded, canonical_mantissa. rewrite fexp_eq. fold (dg m).
  intros H. apply andb_true_iff in H as [H1 H2].
  apply Z.eqb_eq in H1. apply Z.leb_le in H2. change (emax - prec) with 971 in H2.
  pose proof (dg_bounds m) as [_ Dhi].
  assert (dg m <= 53) by lia. repeat split; try lia.
  eapply Z.lt_le_trans; [exact Dhi|]. apply Z.pow_le_mono_r; lia.
Qed.

Lemma bounded_intro m e :
  Z.max (dg m + e - 53) (-1074) = e -> e <= 971 -> bounded prec emax m e = true.
Proof.
  intros H1 H2. unfold bounded, canonical_mantissa. rewrite fexp_eq. fold (dg m).
  apply andb_true_iff. split; [apply Z.eqb_eq; assumption|apply Z.leb_le; exact H2].
Qed.

Lemma pack_cases q E :
  0 <= q <= 2 ^ 53 -> -1074 <= E -> (q < 2 ^ 52 -> E = -1074) ->
  (q = 0 /\ pack q E = S754_zero false) \/
  (0 < q /\ pack q E = S754_infinity false /\ (971 < E \/ (q = 2 ^ 53 /\ 971 <= E))) \/
  (exists mR eR, pack q E = S754_finite false mR eR /\
                 bounded prec emax mR eR = true /\
                 E <= eR /\ Zpos mR * 2 ^ (eR - E) = q).
Proof.
  intros Hq HE Hc. destruct q as [|p|p]; try lia.
  - left. split; reflexivity.
  - right. unfold pack. destruct (Z.ltb_spec (Zpos p) (2 ^ 53)) as [Hlt|Hge].
    + destruct (Z.leb_spec E 971) as [Hle|Hgt].
      * right. exists p, E. split; [reflexivity|]. split.
        -- apply bounded_intro; [|assumption].
           assert (dg p <= 53) by (apply dg_le_of_lt; lia).
           destruct (Z.ltb_spec (Zpos p) (2 ^ 52)) as [Hs|Hn].
           ++ specialize (Hc Hs). lia.
           ++ assert (53 <= dg p) by (apply dg_ge_of_le; exact Hn). lia.
        -- split; [lia|]. rewrite Z.sub_diag. cbn. lia.
      * left. split; [lia|]. split; [reflexivity|]. left; lia.
    + destruct (Z.leb_spec (E + 1) 971) as [Hle|Hgt].
      * right. exists 4503599627370496%positive, (E + 1). split; [reflexivity|]. split.
        -- apply bounded_intro; [|assumption].
           change (dg 4503599627370496) with 53. lia.
        -- split; [lia|]. replace (E + 1 - E) with 1 by lia. cbn. lia.
      * left. split; [lia|]. split; [reflexivity|]. right; lia.
Qed.

Lemma binary_round_aux_canon mx ex q :
  let E := Z.max (dg mx + ex - 53) (-1074) in
  (E = dg mx + ex - 53 -> 2 ^ 52 <= q) -> q < 2 ^ 52 -> E = -1074.
Proof. intros E H Hq. destruct (Z.eq_dec E (-1074)); [assumption|]. lia. Qed.

Lemma pow2_split a b : 0 <= a -> 0 <= b -> 2 ^ (a + b) = 2 ^ a * 2 ^ b.
Proof. intros; apply Z.pow_add_r; assumption. Qed.

Lemma pow2_pos a : 0 <= a -> 0 < 2 ^ a.
Proof. intros; apply Z.pow_pos_nonneg; lia. Qed.

(** Abstracts the powers of two with a symbolic exponent, keeping that they
    are positive, so that the arithmetic left is polynomial. *)
Ltac hide_pow :=
  repeat match goal with
    | |- context [2 ^ ?e] =>
        lazymatch e with Zpos _ => fail | _ => idtac end;
        let X := fresh "pw" in
        set (X := 2 ^ e) in *;
        try (assert (0 < X) by (apply pow2_pos; lia));
        clearbody X
    | H : context [2 ^ ?e] |- _ =>
        lazymatch e with Zpos _ => fail | _ => idtac end;
        let X := fresh "pw" in
        set (X := 2 ^ e) in *;
        try (assert (0 < X) by (apply pow2_pos; lia));
        clearbody X
    end.

Lemma val_pos m e : -1074 <= e -> 0 < val m e.
Proof. intros H. unfold val. pose proof (pow2_pos (e + 1074)). nia. Qed.

(** A finite positive float with a small mantissa is subnormal. *)
Lemma bounded_normal m e :
  bounded prec emax m e = true -> -1074 < e -> 2 ^ 52 <= Zpos m.
Proof.
  intros Hb He. apply bounded_inv in Hb as (Hc & _ & Hd & _).
  pose proof (dg_bounds m) as [Dlo _].
  assert (dg m = 53) by lia. replace 52 with (dg m - 1) by lia. exact Dlo.
Qed.

Lemma bounded_emin m e : bounded prec emax m e = true -> -1074 <= e.
Proof. intros Hb. apply bounded_inv in Hb as (Hc & _). lia. Qed.

(** Rounding is monotone against representable upper bounds: a value that is
    at most the float [(mu, eu)] rounds to a float that is at most [(mu, eu)]. *)
Lemma binary_round_aux_le mx ex mu eu :
  53 <= dg mx -> -1074 <= ex ->
  bounded prec emax mu eu = true ->
  Zpos mx * 2 ^ (ex + 1074) <= val mu eu ->
  exists mR eR,
    binary_round_aux prec emax false (Zpos mx) ex loc_Exact = S754_finite false mR eR /\
    bounded prec emax mR eR = true /\
    val mR eR <= val mu eu /\
    2 ^ 52 <= Zpos mR /\ ex <= eR.
Proof.
  intros Hd Hex Hb Hle.
  pose proof (bounded_inv _ _ Hb) as (Hcu & Heu & Hdu & Hmu).
  pose proof (dg_bounds mx) as [Dlo Dhi]. pose proof (dg_bounds mu) as [Ulo Uhi].
  pose proof (dg_pos mu) as Upos.
  set (E := Z.max (dg mx + ex - 53) (-1074)).
  assert (HE : E = dg mx + ex - 53) by (unfold E; lia).
  destruct (binary_round_aux_cases mx ex ltac:(lia)) as (q & Hq & Hn & H0 & Hr & ->).
  fold E in Hn, H0, Hr |- *. specialize (Hn HE).
  (* the exponent of the bound is at least the rounding exponent *)
  assert (HEu : E <= eu).
  { assert (dg mx - 1 + (ex + 1074) < dg mu + (eu + 1074)); [|lia].
    apply (Z.pow_lt_mono_r_iff 2); [lia|lia|].
    assert (0 <= eu + 1074) by lia.
    rewrite (pow2_split (dg mx - 1)), (pow2_split (dg mu)) by lia. unfold val in Hle.
    pose proof (pow2_pos (ex + 1074) ltac:(lia)). pose proof (pow2_pos (eu + 1074) ltac:(lia)).
    eapply Z.le_lt_trans; [apply Z.mul_le_mono_nonneg_r; [lia|exact Dlo]|].
    eapply Z.le_lt_trans; [exact Hle|]. apply Z.mul_lt_mono_pos_r; [lia|exact Uhi]. }
  remember (Zpos mu * 2 ^ (eu - E)) as U eqn:HeqU.
  remember (E - ex) as k eqn:Heqk.
  assert (HU : Zpos mx <= U * 2 ^ k).
  { subst U. unfold val in *.
    assert (Hpow : 2 ^ (eu + 1074) = 2 ^ (eu - E) * 2 ^ k * 2 ^ (ex + 1074)).
    { rewrite <- !Z.pow_add_r by lia. f_equal. lia. }
    rewrite Hpow in Hle. clear Hpow. hide_pow. nia. }
  assert (HqU : q <= U).
  { destruct (Z.eq_dec E ex) as [Heq|Hne].
    - rewrite (H0 Heq). replace k with 0 in HU by lia. rewrite Z.pow_0_r in HU. lia.
    - destruct (Hr ltac:(lia)) as [->|[-> Hrem]].
      + apply Z.div_le_upper_bound; [apply pow2_pos; lia|lia].
      + pose proof (pow2_pos (k - 1)) as Hp.
        pose proof (Z.div_mod (Zpos mx) (2 ^ k)) as Hdm.
        pose proof (pow2_pos k). 
        assert (Zpos mx / 2 ^ k < U); [|lia].
        apply Z.div_lt_upper_bound; [lia|]. 
        destruct (Z.eq_dec (Zpos mx) (U * 2 ^ k)) as [Hx|]; [|lia].
        rewrite Hx, Z.mod_mul in Hrem by lia. lia. }
  destruct (pack_cases q E Hq ltac:(lia) ltac:(intros; lia))
    as [[Hz _]|[(_ & _ & Hinf)|(mR & eR & -> & HbR & HeR & HvR)]].
  - lia.
  - exfalso. destruct Hinf as [|[Hq53 HE971]]; [lia|].
    assert (eu = E) by lia. subst U. replace (eu - E) with 0 in HqU by lia.
    rewrite Z.pow_0_r in HqU. lia.
  - exists mR, eR. split; [reflexivity|]. split; [assumption|].
    pose proof (bounded_inv _ _ HbR) as (HcR & _ & HdR & HmR).
    split; [|split].
    + unfold val. replace (eR + 1074) with ((eR - E) + (E + 1074)) by lia.
      replace (eu + 1074) with ((eu - E) + (E + 1074)) by lia.
      rewrite (pow2_split (eR - E)), (pow2_split (eu - E)) by lia.
      rewrite !Z.mul_assoc, HvR, <- HeqU.
      apply Z.mul_le_mono_nonneg_r; [apply Z.lt_le_incl, pow2_pos; lia|exact HqU].
    + destruct (Z.eq_dec eR E) as [Heq|Hne].
      * rewrite Heq, Z.sub_diag, Z.pow_0_r in HvR. lia.
      * apply (bounded_normal _ _ HbR). lia.
    + lia.
Qed.

Lemma pos_iter_xO m d : Zpos (Pos.iter xO m d) = Zpos m * 2 ^ Zpos d.
Proof.
  apply (Pos.iter_ind _ xO m (fun p a => Zpos a = Zpos m * 2 ^ Zpos p)).
  - change (Zpos m~0) with (2 * Zpos m). change (2 ^ 1) with 2. lia.
  - intros p a IH. change (Zpos a~0) with (2 * Zpos a).
    rewrite IH, Pos2Z.inj_succ, Z.pow_succ_r by lia. lia.
Qed.

(** [Number(N)] rounds a mantissa of at least 53 bits that denotes [N]. *)
Lemma Number_normal_form N :
  exists mz ez,
    Number_of_BigInt (Zpos N) =
      binary_round_aux prec emax false (Zpos mz) ez loc_Exact /\
    53 <= dg mz /\ -52 <= ez <= 0 /\
    Zpos mz = Zpos N * 2 ^ (- ez) /\
    (dg N <= 53 -> dg mz = 53 /\ ez = dg N - 53) /\
    (53 <= dg N -> ez = 0).
Proof.
  pose proof (dg_bounds N) as [Nlo Nhi]. pose proof (dg_pos N) as Npos.
  unfold Number_of_BigInt, binary_normalize, binary_round, shl_align.
  rewrite Z.add_0_r, fexp_eq, Z.sub_0_r. fold (dg N).
  destruct (Z.max (dg N - 53) (-1074)) as [|p|p] eqn:Hm.
  - exists N, 0. split; [reflexivity|]. repeat split; try lia.
  - exists N, 0. split; [reflexivity|]. repeat split; try lia.
  - assert (Hp : Zpos p = 53 - dg N) by lia.
    exists (Pos.iter xO N p), (Zneg p).
    assert (Hmz : Zpos (Pos.iter xO N p) = Zpos N * 2 ^ Zpos p) by apply pos_iter_xO.
    assert (Hdg : dg (Pos.iter xO N p) = 53).
    { apply dg_unique. rewrite Hmz.
      assert (H52 : 2 ^ (53 - 1) = 2 ^ (dg N - 1) * 2 ^ Zpos p).
      { rewrite <- Z.pow_add_r by lia. f_equal. lia. }
      assert (H53 : 2 ^ 53 = 2 ^ dg N * 2 ^ Zpos p).
      { rewrite <- Z.pow_add_r by lia. f_equal. lia. }
      rewrite H52, H53. pose proof (pow2_pos (Zpos p) ltac:(lia)). split.
      - apply Z.mul_le_mono_nonneg_r; [lia|exact Nlo].
      - apply Z.mul_lt_mono_pos_r; [lia|exact Nhi]. }
    split; [reflexivity|]. split; [lia|]. split; [lia|].
    change (- Zneg p) with (Zpos p). split; [exact Hmz|].
    split; [intros _; split; lia|lia].
Qed.

Lemma Number_normal_form_val mz ez N :
  -52 <= ez <= 0 -> Zpos mz = Zpos N * 2 ^ (- ez) ->
  Zpos mz * 2 ^ (ez + 1074) = Zpos N * 2 ^ 1074.
Proof.
  intros He ->. rewrite <- Z.mul_assoc, <- Z.pow_add_r by lia.
  f_equal. f_equal. lia.
Qed.

(** Integers below [2^53] convert exactly, and back. *)
Lemma Number_exact N :
  Zpos N < 2 ^ 53 ->
  exists mz ez,
    Number_of_BigInt (Zpos N) = S754_finite false mz ez /\
    -52 <= ez <= 0 /\ Zpos mz = Zpos N * 2 ^ (- ez).
Proof.
  intros HN.
  assert (HdN : dg N <= 53) by (apply dg_le_of_lt; lia).
  destruct (Number_normal_form N) as (mz & ez & -> & Hd & He & Hmz & Hsmall & _).
  destruct (Hsmall HdN) as [Hd53 Hez].
  destruct (binary_round_aux_cases mz ez ltac:(lia)) as (q & Hq & _ & H0 & _ & ->).
  rewrite H0 by lia.
  exists mz, ez. split; [|split; [lia|exact Hmz]].
  unfold pack. pose proof (dg_bounds mz) as [_ Dhi]. rewrite Hd53 in Dhi.
  destruct (Z.ltb_spec (Zpos mz) (2 ^ 53)); [|lia].
  replace (Z.max (dg mz + ez - 53) (-1074)) with ez by lia.
  destruct (Z.leb_spec ez 971); [reflexivity|lia].
Qed.

Lemma BigInt_of_Number_exact N :
  Zpos N < 2 ^ 53 -> BigInt_of_Number (Number_of_BigInt (Zpos N)) = Returns (Zpos N).
Proof.
  intros HN. destruct (Number_exact N HN) as (mz & ez & -> & He & Hmz).
  unfold BigInt_of_Number. pose proof (pow2_pos (- ez) ltac:(lia)) as Hp.
  destruct (Z.leb_spec 0 ez) as [H0|H0].
  - assert (ez = 0) by lia. subst ez. cbn in Hmz. cbn [cond_Zopp]. f_equal.
    rewrite Z.pow_0_r. lia.
  - rewrite Hmz, Z.mod_mul, Z.eqb_refl, Z.div_mul by lia. reflexivity.
Qed.

(** [BigInt(Math.floor(x))] of a finite positive double is its integer part. *)
Lemma BigInt_floor_finite m e :
  Zpos m < 2 ^ 53 ->
  BigInt_of_Number (Math_floor (S754_finite false m e)) =
  Returns (if 0 <=? e then Zpos m * 2 ^ e else Zpos m / 2 ^ (- e)).
Proof.
  intros Hm. unfold Math_floor. destruct (Z.leb_spec 0 e) as [He|He].
  - unfold BigInt_of_Number. destruct (Z.leb_spec 0 e); [reflexivity|lia].
  - cbn [cond_Zopp]. pose proof (pow2_pos (- e) ltac:(lia)) as Hp.
    assert (Hq : 0 <= Zpos m / 2 ^ (- e) <= Zpos m).
    { split; [apply Z.div_pos; lia|]. apply Z.div_le_upper_bound; [lia|]. nia. }
    destruct (Zpos m / 2 ^ (- e)) as [|p|p] eqn:Eq; try lia.
    + reflexivity.
    + apply (BigInt_of_Number_exact p). lia.
Qed.

Lemma max_float_bounded : bounded prec emax 9007199254740991 971 = true.
Proof. reflexivity. Qed.

Lemma max_float_val : val 9007199254740991 971 = Number_MAX_VALUE * 2 ^ 1074.
Proof.
  unfold val, Number_MAX_VALUE. change (2 ^ 53 - 1) with 9007199254740991.
  rewrite <- Z.mul_assoc, <- Z.pow_add_r by lia. reflexivity.
Qed.

(** [Number(N)] for [1 <= N <= Number.MAX_VALUE] is a normal double, and it is
    below every double that is at least [N]. *)
Lemma Number_finite N :
  Zpos N <= Number_MAX_VALUE ->
  exists mM eM,
    Number_of_BigInt (Zpos N) = S754_finite false mM eM /\
    bounded prec emax mM eM = true /\ 2 ^ 52 <= Zpos mM /\ -52 <= eM /\
    forall mu eu, bounded prec emax mu eu = true ->
                  Zpos N * 2 ^ 1074 <= val mu eu -> val mM eM <= val mu eu.
Proof.
  intros HN.
  destruct (Number_normal_form N) as (mz & ez & HNum & Hd & He & Hmz & _ & _).
  pose proof (Number_normal_form_val mz ez N He Hmz) as Hval.
  assert (Hmax : Zpos mz * 2 ^ (ez + 1074) <= val 9007199254740991 971).
  { rewrite Hval, max_float_val. apply Z.mul_le_mono_nonneg_r; [|exact HN].
    apply Z.lt_le_incl, pow2_pos; lia. }
  destruct (binary_round_aux_le mz ez _ _ Hd ltac:(lia) max_float_bounded Hmax)
    as (mM & eM & HR & HbM & _ & HmM & HeM).
  exists mM, eM. rewrite HNum. split; [exact HR|]. split; [exact HbM|].
  split; [exact HmM|]. split; [lia|].
  intros mu eu Hbu Hle.
  destruct (binary_round_aux_le mz ez mu eu Hd ltac:(lia) Hbu ltac:(rewrite Hval; exact Hle))
    as (mM' & eM' & HR' & _ & Hle' & _).
  rewrite HR in HR'. injection HR' as <- <-. exact Hle'.
Qed.

Lemma is_random_inv r :
  is_random r = true ->
  r = S754_zero false \/
  exists mr er, r = S754_finite false mr er /\
                bounded prec emax mr er = true /\ er <= -53.
Proof.
  destruct r as [[|]|[|]| |[|] mr er]; try discriminate; auto.
  unfold is_random. intros H. apply andb_true_iff in H as [Hb Hlt].
  right. exists mr, er. split; [reflexivity|]. split; [exact Hb|].
  change (Number_of_BigInt 1) with (S754_finite false 4503599627370496 (-52)) in Hlt.
  unfold SFltb, SFcompare in Hlt.
  destruct (Z.compare_spec er (-52)) as [Heq|Hl|Hg]; try discriminate; [|lia].
  exfalso. subst er.
  pose proof (bounded_normal _ _ Hb ltac:(lia)) as Hn. rewrite pow2_52 in Hn.
  rewrite Pos.compare_cont_spec in Hlt.
  destruct (Pos.compare_spec mr 4503599627370496) as [Hc|Hc|Hc];
    try discriminate.
  assert (Hc' : Zpos mr < 4503599627370496) by exact Hc.
  clear - Hc' Hn. lia.
Qed.

(** A double below 1 times a normal double [M] rounds to a double that is
    strictly below [M]. *)
Lemma Number_mul_lt mr er mM eM :
  bounded prec emax mr er = true -> er <= -53 ->
  bounded prec emax mM eM = true -> 2 ^ 52 <= Zpos mM -> -52 <= eM ->
  Number_mul (S754_finite false mr er) (S754_finite false mM eM) = S754_zero false \/
  exists mR eR,
    Number_mul (S754_finite false mr er) (S754_finite false mM eM)
      = S754_finite false mR eR /\
    bounded prec emax mR eR = true /\ val mR eR < val mM eM.
Proof.
  intros Hbr Her HbM HmM HeM.
  pose proof (bounded_inv _ _ Hbr) as (Hcr & _ & _ & Hmr).
  pose proof (bounded_inv _ _ HbM) as (HcM & HeM971 & _ & HmM53).
  unfold Number_mul, SFmul. cbn [xorb].
  set (P := (mr * mM)%positive).
  assert (HP : Zpos P = Zpos mr * Zpos mM) by apply Pos2Z.inj_mul.
  rewrite pow2_53 in Hmr, HmM53. rewrite pow2_52 in HmM.
  assert (HPlo : 2 ^ 52 <= Zpos P) by (rewrite pow2_52; nia).
  assert (HPhi : Zpos P < 2 ^ 106)
    by (change (2 ^ 106) with (9007199254740992 * 9007199254740992); nia).
  assert (Hd53 : 53 <= dg P) by (apply dg_ge_of_le; exact HPlo).
  assert (Hd106 : dg P <= 106) by (apply dg_le_of_lt; [lia|exact HPhi]).
  pose proof (dg_bounds P) as [Dlo Dhi].
  remember (Z.max (dg P + (er + eM) - 53) (-1074)) as E eqn:HeqE.
  assert (HEex : er + eM <= E) by lia.
  assert (HEeM : E <= eM) by lia.
  destruct (binary_round_aux_cases P (er + eM) ltac:(lia)) as (q & Hq & Hn & H0 & Hr & ->).
  rewrite <- HeqE in Hn, H0, Hr |- *.
  (* the rounded mantissa, at the rounding exponent, is below [M] *)
  assert (Hcore : q < Zpos mM * 2 ^ (eM - E)).
  { destruct (Z.eq_dec E (er + eM)) as [Heq|Hne].
    - rewrite (H0 Heq), HP. replace (eM - E) with (- er) by lia.
      assert (2 ^ 53 <= 2 ^ (- er)) by (apply Z.pow_le_mono_r; lia).
      rewrite pow2_53 in *. hide_pow. nia.
    - assert (Hk : 1 <= E - (er + eM)) by lia.
      specialize (Hr ltac:(lia)).
      destruct (Z.eq_dec er (-53)) as [Her53|Her54].
      + (* 1/2 <= r < 1 *)
        subst er. pose proof (bounded_normal _ _ Hbr ltac:(lia)) as Hmr52.
        rewrite pow2_52 in Hmr52.
        assert (HP104 : 2 ^ 104 <= Zpos P)
          by (change (2 ^ 104) with (4503599627370496 * 4503599627370496); nia).
        assert (Hd105 : 105 <= dg P) by (apply dg_ge_of_le; exact HP104).
        assert (HE : E = dg P + (-53 + eM) - 53) by lia.
        assert (Hd : dg P = 105 \/ dg P = 106) by lia.
        destruct Hd as [Hd|Hd]; rewrite Hd in *.
        * replace (E - (-53 + eM)) with 52 in Hr by lia.
          replace (eM - E) with 1 by lia. change (2 ^ 1) with 2.
          pose proof (Z.div_mod (Zpos P) (2 ^ 52) ltac:(lia)) as Hdm.
          pose proof (Z.mod_pos_bound (Zpos P) (2 ^ 52) ltac:(lia)) as Hmb.
          change (2 ^ 105) with (2 ^ 52 * 9007199254740992) in Dhi.
          assert (HQ : Zpos P / 2 ^ 52 < 9007199254740992) by nia.
          unfold rounds_to in Hr.
          destruct Hr as [->|[-> Hrem]]; [lia|].
          destruct (Z.eq_dec (Zpos mM) 4503599627370496) as [HM|HM]; [|lia].
          exfalso. rewrite HP, HM in Hrem. change 4503599627370496 with (2 ^ 52) in Hrem.
          rewrite Z.mod_mul in Hrem by lia. change (2 ^ (52 - 1)) with 2251799813685248 in Hrem.
          lia.
        * replace (E - (-53 + eM)) with 53 in Hr by lia.
          replace (eM - E) with 0 by lia. rewrite Z.pow_0_r, Z.mul_1_r.
          pose proof (Z.div_mod (Zpos P) (2 ^ 53) ltac:(lia)) as Hdm.
          pose proof (Z.mod_pos_bound (Zpos P) (2 ^ 53) ltac:(lia)) as Hmb.
          change (2 ^ (106 - 1)) with (9007199254740992 * 4503599627370496) in Dlo.
          assert (HPle : Zpos P <= 9007199254740991 * Zpos mM) by nia.
          unfold rounds_to in Hr.
          change (2 ^ (53 - 1)) with 4503599627370496 in Hr.
          rewrite pow2_53 in *.
          destruct (Z.eq_dec (Zpos mM) 4503599627370496) as [HM|HM].
          -- exfalso. rewrite HM in HP. nia.
          -- destruct Hr as [->|[-> Hrem]]; lia.
      + (* r < 1/2 *)
        assert (Ha : 54 <= - er) by lia.
        remember (E - (er + eM)) as k eqn:Heqk.
        assert (Hka : k <= - er) by lia.
        replace (eM - E) with (- er - k) by lia.
        assert (HA : 2 ^ (- er) = 2 * 2 ^ (- er - 1)).
        { rewrite <- Z.pow_succ_r by lia. f_equal. lia. }
        assert (HKT : 2 ^ (- er) = 2 ^ k * 2 ^ (- er - k)).
        { rewrite <- Z.pow_add_r by lia. f_equal. lia. }
        assert (H53 : 2 ^ 53 <= 2 ^ (- er - 1)) by (apply Z.pow_le_mono_r; lia).
        assert (HK : 2 ^ k <= 2 ^ (- er)) by (apply Z.pow_le_mono_r; lia).
        rewrite pow2_53 in H53.
        assert (Hdiv : Zpos P / 2 ^ k < Zpos mM * 2 ^ (- er - k) - 1).
        { apply Z.div_lt_upper_bound; [apply pow2_pos; lia|].
          rewrite HP. hide_pow. nia. }
        destruct Hr as [->|[-> _]]; lia. }
  destruct (pack_cases q E Hq ltac:(lia)
              ltac:(intros Hlt; destruct (Z.eq_dec E (-1074)); [assumption|lia]))
    as [[_ ->]|[(_ & _ & Hinf)|(mR & eR & -> & HbR & HeR & HvR)]].
  - left; reflexivity.
  - exfalso. destruct Hinf as [|[Hq53 HE971]]; [lia|].
    assert (E = eM) by lia. replace (eM - E) with 0 in Hcore by lia.
    rewrite Z.pow_0_r, pow2_53 in *. lia.
  - right. exists mR, eR. split; [reflexivity|]. split; [exact HbR|].
    unfold val.
    assert (H1 : 2 ^ (eR + 1074) = 2 ^ (eR - E) * 2 ^ (E + 1074)).
    { rewrite <- Z.pow_add_r by lia. f_equal. lia. }
    assert (H2 : 2 ^ (eM + 1074) = 2 ^ (eM - E) * 2 ^ (E + 1074)).
    { rewrite <- Z.pow_add_r by lia. f_equal. lia. }
    rewrite H1, H2, !Z.mul_assoc, HvR.
    apply Z.mul_lt_mono_pos_r; [apply pow2_pos; lia|exact Hcore].
Qed.

Lemma Number_mul_zero_l mM eM :
  Number_mul (S754_zero false) (S754_finite false mM eM) = S754_zero false.
Proof. reflexivity. Qed.

(** The witness drawn lies in [[2, n-3]] whenever [n - 4] is in the range of
    the finite doubles. *)
Lemma drawWitness_range r n :
  is_random r = true -> 5 <= n -> n - 4 <= Number_MAX_VALUE ->
  exists a, drawWitness r n = Returns a /\ 2 <= a <= n - 3.
Proof.
  intros Hr Hn Hmax. unfold drawWitness.
  destruct (n - 4) as [|N|N] eqn:HN; try lia.
  destruct (Number_finite N Hmax) as (mM & eM & -> & HbM & HmM & HeM & Hmin).
  assert (Hzero : exists a,
    (u <- BigInt_of_Number (Math_floor (S754_zero false)) ;; Returns (2 + u))%completion
      = Returns a /\ 2 <= a <= n - 3).
  { exists 2. split; [reflexivity|lia]. }
  destruct (is_random_inv r Hr) as [->|(mr & er & -> & Hbr & Her)].
  - rewrite Number_mul_zero_l. exact Hzero.
  - destruct (Number_mul_lt mr er mM eM Hbr Her HbM HmM HeM)
      as [->|(mR & eR & -> & HbR & Hlt)]; [exact Hzero|].
    pose proof (bounded_inv _ _ HbR) as (_ & _ & _ & HmR).
    pose proof (bounded_emin _ _ HbR) as HeR.
    assert (HltN : val mR eR < Zpos N * 2 ^ 1074).
    { destruct (Z.lt_ge_cases (val mR eR) (Zpos N * 2 ^ 1074)) as [|Hge]; [assumption|].
      specialize (Hmin mR eR HbR Hge). lia. }
    rewrite (BigInt_floor_finite mR eR HmR). cbn [cbind].
    eexists. split; [reflexivity|].
    unfold val in HltN.
    destruct (Z.leb_spec 0 eR) as [H0|H0].
    + rewrite (pow2_split eR 1074) in HltN by lia.
      pose proof (pow2_pos eR H0). pose proof (pow2_pos 1074 ltac:(lia)).
      assert (Zpos mR * 2 ^ eR < Zpos N).
      { apply (Z.mul_lt_mono_pos_r (2 ^ 1074)); [assumption|lia]. }
      lia.
    + assert (H1074 : 2 ^ 1074 = 2 ^ (- eR) * 2 ^ (eR + 1074)).
      { rewrite <- Z.pow_add_r by lia. f_equal. lia. }
      rewrite H1074, Z.mul_assoc in HltN.
      pose proof (pow2_pos (- eR) ltac:(lia)) as Hp1.
      pose proof (pow2_pos (eR + 1074) ltac:(lia)) as Hp2.
      assert (HmN : Zpos mR < Zpos N * 2 ^ (- eR)).
      { apply (Z.mul_lt_mono_pos_r (2 ^ (eR + 1074))); assumption. }
      assert (0 <= Zpos mR / 2 ^ (- eR)) by (apply Z.div_pos; lia).
      assert (Zpos mR / 2 ^ (- eR) < Zpos N).
      { apply Z.div_lt_upper_bound; [assumption|]. lia. }
      lia.
Qed.

(** [Number(z)] is [Infinity] from [2^1024] on. *)
Lemma Number_overflow z : 2 ^ 1024 <= z -> Number_of_BigInt z = S754_infinity false.
Proof.
  intros Hz. assert (H0 : 0 < 2 ^ 1024) by (apply pow2_pos; lia).
  destruct z as [|N|N]; try lia.
  destruct (Number_normal_form N) as (mz & ez & -> & Hd & He & Hmz & _ & Hbig).
  assert (HdN : 1025 <= dg N) by (apply dg_ge_of_le; exact Hz).
  assert (Hez : ez = 0) by (apply Hbig; lia).
  subst ez. rewrite Z.pow_0_r, Z.mul_1_r in Hmz. injection Hmz as ->.
  destruct (binary_round_aux_cases N 0 ltac:(lia)) as (q & Hq & Hn & _ & _ & ->).
  specialize (Hn ltac:(lia)).
  destruct (pack_cases q (Z.max (dg N + 0 - 53) (-1074)) Hq ltac:(lia)
              ltac:(intros; lia))
    as [[Hz0 _]|[(_ & -> & _)|(mR & eR & _ & HbR & HeR & _)]].
  - rewrite pow2_52 in Hn. lia.
  - reflexivity.
  - apply bounded_inv in HbR as (_ & H971 & _). lia.
Qed.

Lemma drawWitness_overflow r n :
  is_random r = true -> 2 ^ 1024 <= n - 4 -> drawWitness r n = Throws RangeError.
Proof.
  intros Hr Hn. unfold drawWitness. rewrite (Number_overflow _ Hn).
  destruct (is_random_inv r Hr) as [->|(mr & er & -> & _ & _)]; reflexivity.
Qed.

(* ================================================================== *)
(** * modPow and millerRabin *)
(* ================================================================== *)

Lemma bitlen_quot2 e : 0 < e -> (bitlen (Z.quot e 2) < bitlen e)%nat.
Proof.
  intros H. rewrite Z.quot_div_nonneg by lia. rewrite <- Z.div2_div.
  destruct e as [|p|p]; try lia. destruct p; simpl; lia.
Qed.

Lemma bitlen_pos e : 0 < e -> (0 < bitlen e)%nat.
Proof. destruct e as [|p|p]; try lia. intros _. destruct p; simpl; lia. Qed.

(** The loop of [modPow] multiplies [result] by [base ^ exponent]. *)
Lemma modPow_loop_correct fuel :
  forall result base exponent modulus,
    (bitlen exponent <= fuel)%nat ->
    0 <= exponent -> 0 <= base -> 0 <= result < modulus ->
    modPow_loop fuel result base exponent modulus
    = Some ((result * base ^ exponent) mod modulus).
Proof.
  induction fuel as [|fuel IH]; intros result base e m Hfuel He Hb Hr.
  - assert (e = 0).
    { destruct (Z.eq_dec e 0); [assumption|].
      pose proof (bitlen_pos e ltac:(lia)). lia. }
    subst e. cbn. rewrite Z.mul_1_r, Z.mod_small by lia. reflexivity.
  - cbn [modPow_loop]. destruct (Z.gtb_spec e 0) as [Hpos|Hnp].
    + pose proof (bitlen_quot2 e Hpos) as Hlen.
      assert (Hrb : Z.rem (base * base) m = (base * base) mod m)
        by (apply Z.rem_mod_nonneg; nia).
      assert (Hq : Z.quot e 2 = e / 2) by (apply Z.quot_div_nonneg; lia).
      assert (Hre : Z.rem e 2 = e mod 2) by (apply Z.rem_mod_nonneg; lia).
      pose proof (Z.div_mod e 2 ltac:(lia)) as Hdm.
      pose proof (Z.mod_pos_bound e 2 ltac:(lia)) as Hmb.
      assert (Hsq : forall r, (r * ((base * base) mod m) ^ (e / 2)) mod m
                              = (r * base ^ (2 * (e / 2))) mod m).
      { intros r. rewrite Z.mul_mod, Z.mod_pow_l by lia.
        rewrite <- Z.mul_mod by lia. f_equal. f_equal.
        rewrite Z.pow_mul_r by lia. f_equal. lia. }
      rewrite Hq in Hlen. rewrite Hrb, Hq, Hre.
      assert (Hr' : 0 <= (if e mod 2 =? 1 then Z.rem (result * base) m else result) < m).
      { destruct (Z.eqb_spec (e mod 2) 1); [|lia].
        rewrite Z.rem_mod_nonneg by nia. apply Z.mod_pos_bound; lia. }
      rewrite IH;
        [|lia|apply Z.div_pos; lia|apply Z.mod_pos_bound; lia|exact Hr'].
      f_equal. rewrite Hsq.
      destruct (Z.eqb_spec (e mod 2) 1) as [Hodd|Heven].
      * rewrite Z.rem_mod_nonneg by nia.
        rewrite Z.mul_mod, Z.mod_mod, <- Z.mul_mod by lia.
        f_equal. replace e with (2 * (e / 2) + 1) at 2 by lia.
        rewrite Z.pow_add_r, Z.pow_1_r by lia. ring.
      * f_equal. f_equal. f_equal. lia.
    + assert (e = 0) by lia. subst e. rewrite Z.pow_0_r, Z.mul_1_r, Z.mod_small by lia.
      reflexivity.
Qed.

Lemma modPow_correct base exponent modulus :
  0 <= base -> 0 <= exponent -> 1 <= modulus ->
  modPow base exponent modulus = Returns (base ^ exponent mod modulus).
Proof.
  intros Hb He Hm. unfold modPow.
  destruct (Z.eqb_spec modulus 1) as [->|H1].
  - rewrite Z.mod_1_r. reflexivity.
  - destruct (Z.eqb_spec modulus 0) as [|_]; [lia|].
    rewrite Z.rem_mod_nonneg by lia.
    rewrite modPow_loop_correct; try lia.
    + rewrite Z.mul_1_l, Z.mod_pow_l by lia. reflexivity.
    + apply Z.mod_pos_bound; lia.
Qed.

(** [factorTwos] writes [d] as an odd number times a power of two. *)
Lemma factorTwos_correct fuel :
  forall s d, (bitlen d <= fuel)%nat -> 0 < d -> 0 <= s ->
    exists s' d', factorTwos fuel s d = Some (s', d') /\
                  s <= s' /\ 0 < d' /\ d' mod 2 = 1 /\ d = d' * 2 ^ (s' - s).
Proof.
  induction fuel as [|fuel IH]; intros s d Hfuel Hd Hs.
  - pose proof (bitlen_pos d Hd). lia.
  - cbn [factorTwos]. rewrite Z.rem_mod_nonneg by lia.
    pose proof (Z.div_mod d 2 ltac:(lia)) as Hdm.
    pose proof (Z.mod_pos_bound d 2 ltac:(lia)) as Hmb.
    destruct (Z.eqb_spec (d mod 2) 0) as [Hev|Hodd].
    + pose proof (bitlen_quot2 d Hd) as Hlen.
      rewrite Z.quot_div_nonneg in * by lia.
      destruct (IH (s + 1) (d / 2) ltac:(lia) ltac:(lia) ltac:(lia))
        as (s' & d' & -> & Hs' & Hd' & Hodd' & Heq).
      exists s', d'. split; [reflexivity|]. repeat split; try lia.
      replace (s' - s) with (Z.succ (s' - (s + 1))) by lia.
      rewrite Z.pow_succ_r by lia. lia.
    + exists s, d. split; [reflexivity|]. repeat split; try lia.
      rewrite Z.sub_diag, Z.pow_0_r. lia.
Qed.

(** Modulo a prime, 1 has no square root other than 1 and -1. *)
Lemma sqrt_one_prime n x :
  Z.prime n -> 0 <= x < n -> (x * x) mod n = 1 -> x = 1 \/ x = n - 1.
Proof.
  intros Hp Hx Hsq. pose proof (Z.prime_ge_2 _ Hp) as Hn.
  assert (Hdiv : (n | (x - 1) * (x + 1))).
  { exists ((x * x) / n). pose proof (Z.div_mod (x * x) n ltac:(lia)). lia. }
  apply (Z.divide_prime_mul _ _ _ Hp) in Hdiv as [[c Hc]|[c Hc]].
  - left. assert (c = 0) by nia. lia.
  - right. assert (c = 1) by nia. lia.
Qed.

Lemma squareLoop_prime n :
  Z.prime n ->
  forall count x,
    0 <= x < n -> x <> 1 -> x <> n - 1 ->
    x ^ (2 ^ (Z.of_nat count + 1)) mod n = 1 ->
    squareLoop count x n = Returns true.
Proof.
  intros Hp. pose proof (Z.prime_ge_2 _ Hp) as Hn.
  induction count as [|count IH]; intros x Hx H1 Hn1 Hpow.
  - exfalso. change (2 ^ (Z.of_nat 0 + 1)) with 2 in Hpow.
    rewrite Z.pow_2_r in Hpow. destruct (sqrt_one_prime n x Hp Hx Hpow); lia.
  - cbn [squareLoop]. rewrite modPow_correct by lia. cbn [cbind].
    rewrite Z.pow_2_r.
    destruct (Z.eqb_spec (x * x mod n) (n - 1)) as [|Hne]; [reflexivity|].
    apply IH.
    + apply Z.mod_pos_bound; lia.
    + intros Hone. destruct (sqrt_one_prime n x Hp Hx Hone); lia.
    + exact Hne.
    + rewrite Z.mod_pow_l by lia. rewrite <- Z.pow_2_r, <- Z.pow_mul_r by lia.
      rewrite <- Z.pow_succ_r by lia. rewrite <- Hpow. f_equal. f_equal. f_equal. lia.
Qed.

Lemma witnessLoop_prime random n s d :
  Z.prime n -> 5 <= n -> n - 4 <= Number_MAX_VALUE ->
  (forall i, is_random (random i) = true) ->
  1 <= s -> 0 < d -> n - 1 = d * 2 ^ s ->
  forall rounds i, witnessLoop random n s d i rounds = Returns true.
Proof.
  intros Hp Hn Hmax Hrand Hs Hd Hdec.
  induction rounds as [|rounds IH]; intros i; [reflexivity|].
  cbn [witnessLoop].
  destruct (drawWitness_range (random i) n (Hrand i) Hn Hmax) as (a & -> & Ha).
  cbn [cbind]. rewrite modPow_correct by lia. cbn [cbind].
  set (x := a ^ d mod n).
  assert (Hx : 0 <= x < n) by (apply Z.mod_pos_bound; lia).
  destruct (Z.eqb_spec x 1) as [|Hx1]; [apply IH|].
  destruct (Z.eqb_spec x (n - 1)) as [|Hxn]; [apply IH|].
  cbn [orb]. rewrite (squareLoop_prime n Hp); try assumption.
  - cbn [cbind]. apply IH.
  - rewrite Z2Nat.id by lia. replace (s - 1 + 1) with s by lia.
    unfold x. rewrite Z.mod_pow_l by lia.
    rewrite <- Z.pow_mul_r by (try apply Z.pow_nonneg; lia).
    rewrite <- Hdec. apply Z.fermat_nz; [exact Hp|].
    rewrite Z.mod_small by lia. lia.
Qed.

Lemma prime_odd n : Z.prime n -> 3 <= n -> n mod 2 = 1.
Proof.
  intros [_ Hp] Hn. pose proof (Z.mod_pos_bound n 2 ltac:(lia)).
  destruct (Z.eq_dec (n mod 2) 0) as [H0|]; [|lia].
  exfalso. apply (Hp 2 ltac:(lia)). apply Z.mod_divide; lia.
Qed.

Lemma millerRabin_prime random n k :
  Z.prime n -> n - 4 <= Number_MAX_VALUE ->
  (forall i, is_random (random i) = true) ->
  millerRabin random n k = Returns true.
Proof.
  intros Hp Hmax Hrand. pose proof (Z.prime_ge_2 _ Hp) as Hn.
  unfold millerRabin.
  destruct (Z.eqb_spec n 2) as [|H2]; [reflexivity|].
  destruct (Z.eqb_spec n 3) as [|H3]; [reflexivity|]. cbn [orb].
  pose proof (prime_odd n Hp ltac:(lia)) as Hodd.
  destruct (Z.ltb_spec n 2); [lia|]. cbn [orb].
  rewrite Z.rem_mod_nonneg, Hodd by lia. cbn [Z.eqb].
  assert (n <> 4) by (intros ->; discriminate Hodd).
  destruct (factorTwos_correct (bitlen (n - 1)) 0 (n - 1) ltac:(lia) ltac:(lia) ltac:(lia))
    as (s & d & -> & Hs & Hd & Hdodd & Hdec).
  rewrite Z.sub_0_r in Hdec.
  apply witnessLoop_prime; try assumption; try lia.
  destruct (Z.eq_dec s 0) as [->|]; [|lia].
  rewrite Z.pow_0_r, Z.mul_1_r in Hdec. exfalso.
  pose proof (Z.div_mod n 2 ltac:(lia)) as Hdm.
  assert (Hev : (n - 1) mod 2 = 0).
  { replace (n - 1) with ((n / 2) * 2) by lia. apply Z.mod_mul; lia. }
  rewrite Hdec in Hev. lia.
Qed.

(** C2.  For [base >= 0], [exponent >= 0] and [modulus >= 1],
    [modPow(base, exponent, modulus)] returns [base ^ exponent mod modulus],
    computed on unbounded integers. *)
Theorem modPow_computes_power_mod base exponent modulus :
  0 <= base -> 0 <= exponent -> 1 <= modulus ->
  modPow base exponent modulus = Returns (base ^ exponent mod modulus).
Proof.
  intros Hb He Hm. unfold modPow.
  destruct (Z.eqb_spec modulus 1) as [->|H1].
  - rewrite Z.mod_1_r. reflexivity.
  - destruct (Z.eqb_spec modulus 0) as [|_]; [lia|].
    rewrite Z.rem_mod_nonneg by lia.
    rewrite modPow_loop_correct; try lia.
    + rewrite Z.mul_1_l, Z.mod_pow_l by lia. reflexivity.
    + apply Z.mod_pos_bound; lia.
Qed.

Lemma modPow_computes_power_mod_witness :
  0 <= 3 /\ 0 <= 200 /\ 1 <= 1000 /\
  modPow 3 200 1000 = Returns (3 ^ 200 mod 1000).
Proof.
  split; [lia|split; [lia|split; [lia|]]].
  apply modPow_computes_power_mod; lia.
Defined.

Lemma no_divisor_prime n : 1 < n -> no_divisor n = true -> Z.prime n.
Proof.
  intros Hn Hnd. split; [exact Hn|]. intros k Hk Hdiv.
  unfold no_divisor in Hnd. rewrite forallb_forall in Hnd.
  specialize (Hnd (Z.to_nat (k - 2))).
  rewrite Z2Nat.id in Hnd by lia. replace (k - 2 + 2) with k in Hnd by lia.
  assert (Hin : In (Z.to_nat (k - 2)) (seq 0 (Z.to_nat (n - 2)))).
  { apply in_seq. lia. }
  specialize (Hnd Hin). apply negb_true_iff, Z.eqb_neq in Hnd.
  apply Hnd. apply Z.mod_divide; [lia|exact Hdiv].
Qed.

Lemma prime_97 : Z.prime 97.
Proof. apply no_divisor_prime; [lia|vm_compute; reflexivity]. Qed.
Lemma prime_7919 : Z.prime 7919.
Proof. apply no_divisor_prime; [lia|vm_compute; reflexivity]. Qed.

Lemma millerRabin_overflow rnd n k :
  (forall i, is_random (rnd i) = true) -> (1 <= k)%nat ->
  2 ^ 1024 + 4 <= n -> n mod 2 = 1 ->
  millerRabin rnd n k = Throws RangeError.
Proof.
  intros Hrand Hk Hn Hodd.
  assert (H0 : 0 < 2 ^ 1024) by (apply pow2_pos; lia).
  unfold millerRabin.
  destruct (Z.eqb_spec n 2); [lia|]. destruct (Z.eqb_spec n 3); [lia|].
  destruct (Z.ltb_spec n 2); [lia|]. cbn [orb].
  rewrite Z.rem_mod_nonneg, Hodd by lia. cbn [Z.eqb].
  destruct (factorTwos_correct (bitlen (n - 1)) 0 (n - 1) ltac:(lia) ltac:(lia) ltac:(lia))
    as (s & d & -> & _).
  destruct k as [|k]; [lia|]. cbn [witnessLoop].
  rewrite drawWitness_overflow by (auto; lia). reflexivity.
Qed.

(** C1.  The claim says that [millerRabin] returns true for every prime.  At
    the Mersenne prime [2^1279 - 1] it does not: [Number(n - 4n)] is
    [Infinity] there, so the first witness draw throws a RangeError, whatever
    [Math.random()] returns and for any number of rounds [k >= 1].  (For
    primes with [n - 4 <= Number.MAX_VALUE] the test does return true, see
    [millerRabin_prime].) *)
Theorem millerRabin_prime_M1279_throws rnd k :
  (forall i, is_random (rnd i) = true) -> (1 <= k)%nat ->
  millerRabin rnd (2 ^ 1279 - 1) k = Throws RangeError.
Proof.
  intros Hrand Hk. apply millerRabin_overflow; try assumption.
  - apply Z.leb_le. vm_compute. reflexivity.
  - vm_compute. reflexivity.
Qed.

Lemma millerRabin_prime_M1279_throws_witness :
  millerRabin (fun _ => S754_zero false) (2 ^ 1279 - 1) 5 = Throws RangeError.
Proof.
  apply millerRabin_prime_M1279_throws; [intros i; reflexivity|lia].
Defined.

(** C3.  [millerRabin(n, k)] returns true for [n = 2] and [n = 3], false for
    every [n < 2] and false for every even [n > 2], for any [k] and whatever
    [Math.random()] would return. *)
Theorem millerRabin_small_and_even rnd n k :
  (n = 2 \/ n = 3 -> millerRabin rnd n k = Returns true) /\
  (n < 2 -> millerRabin rnd n k = Returns false) /\
  (2 < n -> Z.even n = true -> millerRabin rnd n k = Returns false).
Proof.
  unfold millerRabin. repeat split.
  - intros [-> | ->]; reflexivity.
  - intros Hn. destruct (Z.eqb_spec n 2); [lia|]. destruct (Z.eqb_spec n 3); [lia|].
    destruct (Z.ltb_spec n 2); [reflexivity|lia].
  - intros Hn Hev. destruct (Z.eqb_spec n 2); [lia|].
    destruct (Z.eqb_spec n 3) as [->|]; [discriminate Hev|].
    destruct (Z.ltb_spec n 2); [lia|]. cbn [orb].
    rewrite Z.rem_mod_nonneg, Zmod_even, Hev by lia. reflexivity.
Qed.

Lemma millerRabin_small_and_even_witness :
  millerRabin (fun _ => S754_zero false) 2 5 = Returns true /\
  millerRabin (fun _ => S754_zero false) 1 5 = Returns false /\
  millerRabin (fun _ => S754_zero false) 10 5 = Returns false.
Proof.
  pose proof (millerRabin_small_and_even (fun _ => S754_zero false) 2 5) as (H2 & _).
  pose proof (millerRabin_small_and_even (fun _ => S754_zero false) 1 5) as (_ & H1 & _).
  pose proof (millerRabin_small_and_even (fun _ => S754_zero false) 10 5) as (_ & _ & H10).
  split; [apply H2; left; reflexivity|].
  split; [apply H1; lia|apply H10; [lia|reflexivity]].
Defined.

(** C4.  The claim says that every integer of [[2, n-2]], [n - 2] included,
    can be drawn as a witness.  The draw
    [2n + BigInt(Math.floor(Math.random() * Number(n - 4n)))] never gives
    [n - 2]: for [n >= 5] with [n - 4] in the range of the doubles, and for
    every value of [Math.random()], the witness is not [n - 2] (it lies in
    [[2, n-3]], see [drawWitness_range]). *)
Theorem drawWitness_misses_n_minus_2 r n :
  is_random r = true -> 5 <= n -> n - 4 <= Number_MAX_VALUE ->
  drawWitness r n <> Returns (n - 2).
Proof.
  intros Hr Hn Hmax Heq.
  destruct (drawWitness_range r n Hr Hn Hmax) as (a & Ha & Hrange).
  rewrite Ha in Heq. injection Heq as ->. lia.
Qed.

Lemma drawWitness_misses_n_minus_2_witness : is_random almost_one = true /\ drawWitness almost_one 7 <> Returns (7 - 2).
Proof.
  split; [reflexivity|].
  apply drawWitness_misses_n_minus_2; [reflexivity|lia|].
  apply Z.leb_le. vm_compute. reflexivity.
Defined.

Lemma small_below_MAX n : n <= 2 ^ 1000 -> n - 4 <= Number_MAX_VALUE.
Proof.
  intros H. assert (2 ^ 1000 <= Number_MAX_VALUE) by (apply Z.leb_le; vm_compute; reflexivity).
  assert (0 < 2 ^ 1000) by (apply pow2_pos; lia). lia.
Qed.

(* ================================================================== *)
(** * processMessage, sendResponse and the polling loop *)
(* ================================================================== *)

Ltac js_unfold :=
  unfold processMessage, processMessage_body, sendResponse, serialize,
    bind, try_catch, lift, emit, ret, read_outQueueHandle, write_outQueueHandle.

Lemma hasOwnProperty_id_true data :
  hasOwnProperty_id data = Returns true ->
  exists props, data = JObject props /\ has_own props "hasOwnProperty" = false /\
                has_own props "id" = true.
Proof.
  destruct data; cbn; try discriminate.
  destruct (has_own props "hasOwnProperty") eqn:Hh; [discriminate|].
  intros H. injection H as H. exists props. auto.
Qed.

Lemma has_own_true props key :
  has_own props key = true -> exists v, own_property props key = Some v.
Proof. unfold has_own. destruct (own_property props key); [eauto|discriminate]. Qed.


(** A well-formed record is answered. *)
Lemma processMessage_answer E d msg hOut props id value n isPrime :
  JSON_parse E (Buffer_toString msg) = Returns (JObject props) ->
  has_own props "hasOwnProperty" = false ->
  own_property props "id" = Some id ->
  own_property props "value" = Some value ->
  is_undefined value = false ->
  BigInt_of_value E value = Returns n ->
  millerRabin (random d) n 5 = Returns isPrime ->
  ToString_throws id = false ->
  processMessage E d msg (Some hOut) =
  (Returns tt, Some hOut,
   [console_log "Processing a message..."; console_log "Record ";
    mq_PutSync hOut MQPMO_NO_SYNCPOINT (JSON_stringify E (response id value isPrime));
    match putErr d with
    | Some _ => console_error "Error putting message to output queue:"
    | None => console_log "Response sent to "
    end]).
Proof.
  intros Hparse Hh Hid Hvalue Hundef Hbig Hmr Hts. js_unfold.
  rewrite Hparse. cbn. unfold has_own in *. rewrite Hid, Hvalue in *.
  destruct (own_property props "hasOwnProperty"); [discriminate|]. cbn.
  rewrite Hundef. cbn. rewrite Hbig. cbn. rewrite Hmr. cbn. rewrite Hts. cbn.
  destruct (putErr d); reflexivity.
Qed.

(** ** The modelled part of JSON on records in canonical form *)

























(** The three kinds of malformed message are logged and dropped by
    [processMessage]. *)
Lemma processMessage_malformed E d msg g data :
  JSON_parse E (Buffer_toString msg) = Returns data ->
  lacks_id data = true \/ value_undefined data = true \/
  value_unparsable E data = true ->
  exists text,
    processMessage E d msg g
    = (Returns tt, g, [console_log "Processing a message..."; console_error text]).
Proof.
  intros Hparse Hbad. js_unfold. rewrite Hparse. cbn.
  destruct (hasOwnProperty_id data) as [[|]|e|] eqn:Hid; cbn;
    try (eexists; reflexivity).
  - apply hasOwnProperty_id_true in Hid as (props & -> & _ & Hhas).
    unfold lacks_id, value_undefined, value_unparsable in Hbad.
    rewrite Hhas in Hbad. cbn [negb get_field] in *.
    destruct (own_property props "value") as [value|] eqn:Hvalue; cbn in *.
    + destruct (is_undefined value) eqn:Hundef; cbn; [eexists; reflexivity|].
      destruct Hbad as [Hbad|[Hbad|Hbad]]; try discriminate.
      destruct (BigInt_of_value E value) as [n|e|] eqn:Hbig; try discriminate.
      cbn. eexists; reflexivity.
    + eexists; reflexivity.
  - destruct data; cbn in Hid; try discriminate.
    destruct (has_own props "hasOwnProperty"); discriminate.
Qed.

Lemma In_is_put t : (forall h o p, ~ In (mq_PutSync h o p) t) <-> existsb is_put t = false.
Proof.
  split.
  - intros H. destruct (existsb is_put t) eqn:Hex; [|reflexivity].
    apply existsb_exists in Hex as (e & Hin & Hp). destruct e; try discriminate.
    exfalso. eapply H; eassumption.
  - intros H h o p Hin. assert (existsb is_put t = true); [|congruence].
    apply existsb_exists. eexists; split; [eassumption|reflexivity].
Qed.

Lemma getMessage_received E hIn d g :
  getErr d = None ->
  getMessage E hIn d g =
  (emit (console_log "Polling for a message...") ;;
   emit (mq_GetSync hIn 16385 3000 1024) ;;
   emit (console_log "Message received, length: ") ;;
   processMessage E d (msgBuffer d) ;;
   emit (setImmediate (cb_getMessage hIn)))%js g.
Proof. intros H. unfold getMessage. rewrite H. reflexivity. Qed.

(** C6.  A message that parses to a record without [id], or with an
    undefined [value], or with a [value] that [BigInt] rejects, is logged and
    dropped: [processMessage] returns normally, having made one
    [console.error] call and no put; and [getMessage], receiving such a
    message, returns normally without any put and ends by scheduling the
    next [getMessage] with [setImmediate]. *)
Theorem malformed_message_is_dropped E d msg g data :
  JSON_parse E (Buffer_toString msg) = Returns data ->
  lacks_id data = true \/ value_undefined data = true \/
  value_unparsable E data = true ->
  (exists text,
     processMessage E d msg g
     = (Returns tt, g, [console_log "Processing a message..."; console_error text])) /\
  (forall hIn, getErr d = None -> msgBuffer d = msg ->
     exists t,
       getMessage E hIn d g = (Returns tt, g, t ++ [setImmediate (cb_getMessage hIn)]) /\
       existsb is_put t = false).
Proof.
  intros Hparse Hbad.
  destruct (processMessage_malformed E d msg g data Hparse Hbad) as (text & Hpm).
  split; [exists text; exact Hpm|].
  intros hIn Hget Hmsg. rewrite (getMessage_received E hIn d g Hget), Hmsg.
  unfold bind at 1 2 3 4. unfold emit at 1 2 3. rewrite Hpm. cbn.
  exists [console_log "Polling for a message..."; mq_GetSync hIn 16385 3000 1024;
          console_log "Message received, length: "; console_log "Processing a message...";
          console_error text].
  split; reflexivity.
Qed.

Lemma malformed_message_is_dropped_witness :
  (exists text,
     processMessage malformed_environment example_delivery (msgBuffer example_delivery) (Some 9)
     = (Returns tt, Some 9, [console_log "Processing a message..."; console_error text])) /\
  (forall hIn, getErr example_delivery = None ->
     msgBuffer example_delivery = msgBuffer example_delivery ->
     exists t,
       getMessage malformed_environment hIn example_delivery (Some 9)
       = (Returns tt, Some 9, t ++ [setImmediate (cb_getMessage hIn)]) /\
       existsb is_put t = false).
Proof.
  apply (malformed_message_is_dropped malformed_environment example_delivery
           (msgBuffer example_delivery) (Some 9)
           (JObject [("value"%string, JString "97")])).
  - reflexivity.
  - left. reflexivity.
Defined.


Lemma getMessage_no_message E hIn d g :
  is_no_message d = true ->
  getMessage E hIn d g =
  (Returns tt, g,
   [console_log "Polling for a message..."; mq_GetSync hIn 16385 3000 1024;
    console_log "No message available. Polling again...";
    setImmediate (cb_getMessage hIn)]).
Proof.
  unfold is_no_message, getMessage. intros H.
  destruct (getErr d) as [err|]; [|discriminate]. rewrite H. reflexivity.
Qed.

Lemma getMessage_fault E hIn d g :
  is_receive_fault d = true ->
  getMessage E hIn d g =
  (Returns tt, g,
   [console_log "Polling for a message..."; mq_GetSync hIn 16385 3000 1024;
    console_error "Error getting message:"]).
Proof.
  unfold is_receive_fault, getMessage. intros H.
  destruct (getErr d) as [err|]; [|discriminate].
  apply negb_true_iff in H. rewrite H. reflexivity.
Qed.

Lemma callback_eqb_refl cb : callback_eqb cb cb = true.
Proof. destruct cb; cbn; rewrite ?Z.eqb_refl; reflexivity. Qed.

Lemma receives_app t1 t2 : receives (t1 ++ t2) = (receives t1 + receives t2)%nat.
Proof.
  induction t1 as [|e t1 IH]; [reflexivity|].
  destruct e; cbn; rewrite IH; reflexivity.
Qed.

Lemma connects_app t1 t2 : connects (t1 ++ t2) = (connects t1 + connects t2)%nat.
Proof.
  induction t1 as [|e t1 IH]; [reflexivity|].
  destruct e; cbn; rewrite IH; reflexivity.
Qed.

Lemma run_nothing_pending E p turns : pending p = [] -> run E p turns = p.
Proof.
  intros Hp. induction turns as [|[cb d] turns IH]; [reflexivity|].
  cbn [run]. unfold step. rewrite Hp. cbn [existsb].
  destruct (crashed p); exact IH.
Qed.

Lemma step_no_message E p hIn d :
  pending p = [cb_getMessage hIn] -> crashed p = false ->
  is_no_message d = true ->
  exists p',
    step E p (cb_getMessage hIn) d = Some p' /\
    pending p' = [cb_getMessage hIn] /\ crashed p' = false /\
    outQueueHandle p' = outQueueHandle p /\
    receives (trace p') = S (receives (trace p)).
Proof.
  intros Hp Hc Hd. unfold step. rewrite Hc, Hp. cbn [existsb].
  rewrite callback_eqb_refl. cbn [orb run_callback].
  rewrite (getMessage_no_message E hIn d _ Hd).
  eexists. split; [reflexivity|]. cbn [pending crashed outQueueHandle trace remove_first].
  rewrite callback_eqb_refl. repeat split; try reflexivity.
  rewrite receives_app. cbn. lia.
Qed.

Lemma run_no_messages E hIn ds :
  Forall (fun d => is_no_message d = true) ds ->
  forall p, pending p = [cb_getMessage hIn] -> crashed p = false ->
    let p' := run E p (map (pair (cb_getMessage hIn)) ds) in
    pending p' = [cb_getMessage hIn] /\ crashed p' = false /\
    receives (trace p') = (receives (trace p) + List.length ds)%nat.
Proof.
  induction 1 as [|d ds Hd Hds IH]; intros p Hp Hc.
  - cbn. repeat split; try assumption. lia.
  - cbn [map run].
    destruct (step_no_message E p hIn d Hp Hc Hd) as (p1 & -> & Hp1 & Hc1 & _ & Hr1).
    destruct (IH p1 Hp1 Hc1) as (H1 & H2 & H3). cbv zeta.
    repeat split; try assumption. rewrite H3, Hr1. cbn [List.length]. lia.
Qed.

(** C7.  In a process whose only pending callback is [getMessage]: a receive
    that finds no message makes one [GetSync] call and hands [getMessage] to
    [setImmediate] (it does not call it); after any number of such receives
    in a row [getMessage] is still pending, and each of them issued one
    receive.  After a receive that fails with another reason code the error
    is logged, nothing is pending, and no further turn changes the process. *)
Theorem polling_continues_on_no_message_and_halts_on_fault E hIn p :
  pending p = [cb_getMessage hIn] -> crashed p = false ->
  (forall d g, is_no_message d = true ->
     getMessage E hIn d g =
     (Returns tt, g,
      [console_log "Polling for a message..."; mq_GetSync hIn 16385 3000 1024;
       console_log "No message available. Polling again...";
       setImmediate (cb_getMessage hIn)])) /\
  (forall ds, Forall (fun d => is_no_message d = true) ds ->
     let p' := run E p (map (pair (cb_getMessage hIn)) ds) in
     pending p' = [cb_getMessage hIn] /\ crashed p' = false /\
     receives (trace p') = (receives (trace p) + List.length ds)%nat) /\
  (forall d, is_receive_fault d = true ->
     exists p',
       step E p (cb_getMessage hIn) d = Some p' /\
       pending p' = [] /\
       trace p' = (trace p ++
         [console_log "Polling for a message..."; mq_GetSync hIn 16385 3000 1024;
          console_error "Error getting message:"])%list /\
       forall turns, run E p' turns = p').
Proof.
  intros Hp Hc. split; [|split].
  - intros d g Hd. apply getMessage_no_message; exact Hd.
  - intros ds Hds. apply run_no_messages; assumption.
  - intros d Hd. unfold step. rewrite Hc, Hp. cbn [existsb].
    rewrite callback_eqb_refl. cbn [orb run_callback].
    rewrite (getMessage_fault E hIn d _ Hd).
    eexists. split; [reflexivity|]. cbn [pending trace remove_first].
    rewrite callback_eqb_refl. split; [reflexivity|]. split; [reflexivity|].
    intros turns. apply run_nothing_pending. reflexivity.
Qed.

Lemma polling_continues_on_no_message_and_halts_on_fault_witness :
  pending (run example_environment polling_process
             (map (pair (cb_getMessage 7)) [no_message_delivery; no_message_delivery]))
  = [cb_getMessage 7] /\
  exists p', step example_environment polling_process (cb_getMessage 7) failed_delivery = Some p' /\
             pending p' = [].
Proof.
  destruct (polling_continues_on_no_message_and_halts_on_fault
              example_environment 7 polling_process eq_refl eq_refl) as (_ & Hrun & Hfault).
  split.
  - apply (Hrun [no_message_delivery; no_message_delivery]).
    repeat constructor.
  - destruct (Hfault failed_delivery eq_refl) as (p' & Hs & Hp & _).
    exists p'. split; assumption.
Defined.

Lemma Connx_callback_failure E d g :
  is_failure d = true ->
  Connx_callback E d g =
  (Returns tt, g,
   [console_error "Error connecting to MQ:";
    console_log "Retrying connection in 5 seconds...";
    setTimeout cb_startConsumer 5000]).
Proof.
  unfold is_failure, Connx_callback. destruct (result d); [reflexivity|discriminate].
Qed.

Lemma start_state E :
  start E = {| outQueueHandle := None; pending := [cb_Connx];
               trace := [console_log "Starting consumer..."; mq_Connx (qMgr E) cb_Connx];
               crashed := false |}.
Proof. reflexivity. Qed.

Lemma step_connect_failure E p d d' :
  pending p = [cb_Connx] -> crashed p = false -> is_failure d = true ->
  exists p',
    run E p [(cb_Connx, d); (cb_startConsumer, d')] = p' /\
    pending p' = [cb_Connx] /\ crashed p' = false /\
    outQueueHandle p' = outQueueHandle p /\
    connects (trace p') = S (connects (trace p)).
Proof.
  intros Hp Hc Hd.
  assert (H1 : step E p cb_Connx d =
               Some {| outQueueHandle := outQueueHandle p;
                       pending := [cb_startConsumer];
                       trace := trace p ++
                         [console_error "Error connecting to MQ:";
                          console_log "Retrying connection in 5 seconds...";
                          setTimeout cb_startConsumer 5000];
                       crashed := false |}).
  { unfold step. rewrite Hc, Hp. cbn [existsb callback_eqb orb run_callback].
    rewrite (Connx_callback_failure E d _ Hd). reflexivity. }
  eexists. split.
  - cbn [run]. rewrite H1. reflexivity.
  - cbn. repeat split; try reflexivity.
    rewrite !connects_app. cbn. lia.
Qed.

Lemma run_connect_failures E ds :
  Forall (fun d => is_failure d = true) ds ->
  forall p, pending p = [cb_Connx] -> crashed p = false ->
    let p' := run E p (flat_map (fun d => [(cb_Connx, d); (cb_startConsumer, d)]) ds) in
    pending p' = [cb_Connx] /\ crashed p' = false /\
    connects (trace p') = (connects (trace p) + List.length ds)%nat.
Proof.
  induction 1 as [|d ds Hd Hds IH]; intros p Hp Hc.
  - cbn. repeat split; try assumption. lia.
  - cbn [flat_map].
    destruct (step_connect_failure E p d d Hp Hc Hd) as (p1 & Hrun & Hp1 & Hc1 & _ & Hr1).
    change ([(cb_Connx, d); (cb_startConsumer, d)] ++
            flat_map (fun d => [(cb_Connx, d); (cb_startConsumer, d)]) ds)%list
      with ((cb_Connx, d) :: (cb_startConsumer, d) ::
            flat_map (fun d => [(cb_Connx, d); (cb_startConsumer, d)]) ds).
    cbn [run] in Hrun |- *.
    destruct (step E p cb_Connx d) as [pa|];
      (destruct (step E _ cb_startConsumer d) as [pb|]; subst p1;
       destruct (IH _ Hp1 Hc1) as (H1 & H2 & H3); cbv zeta;
       repeat split; try assumption; rewrite H3, Hr1; cbn [List.length]; lia).
Qed.

(** C8.  When the connect call or the open of either queue fails, the
    callback logs and calls [setTimeout(startConsumer, 5000)]; on an open
    failure it calls [mq.Disc] on the connection before that.  No count of
    attempts is kept: after any number of failed connects in a row, each
    followed by its timer, one more connect is under way. *)
Theorem retry_after_connect_or_open_failure E hConn hIn :
  (forall d g, is_failure d = true ->
     Connx_callback E d g =
     (Returns tt, g,
      [console_error "Error connecting to MQ:";
       console_log "Retrying connection in 5 seconds...";
       setTimeout cb_startConsumer 5000]) /\
     OpenInput_callback E hConn d g =
     (Returns tt, g,
      [console_error "Error opening input queue:";
       mq_Disc hConn cb_Disc;
       console_log "Retrying connection in 5 seconds...";
       setTimeout cb_startConsumer 5000]) /\
     OpenOutput_callback E hConn hIn d g =
     (Returns tt, g,
      [console_error "Error opening output queue:";
       mq_Disc hConn cb_Disc;
       console_log "Retrying connection in 5 seconds...";
       setTimeout cb_startConsumer 5000])) /\
  (forall ds, Forall (fun d => is_failure d = true) ds ->
     let p' := run E (start E)
                 (flat_map (fun d => [(cb_Connx, d); (cb_startConsumer, d)]) ds) in
     pending p' = [cb_Connx] /\ crashed p' = false /\
     connects (trace p') = S (List.length ds)).
Proof.
  split.
  - intros d g Hd. unfold is_failure in Hd.
    unfold Connx_callback, OpenInput_callback, OpenOutput_callback.
    destruct (result d); [|discriminate]. repeat split; reflexivity.
  - intros ds Hds.
    destruct (run_connect_failures E ds Hds (start E) eq_refl eq_refl) as (H1 & H2 & H3).
    cbv zeta. split; [exact H1|split; [exact H2|exact H3]].
Qed.

Lemma retry_after_connect_or_open_failure_witness :
  is_failure failed_delivery = true /\
  OpenInput_callback example_environment 3 failed_delivery None =
     (Returns tt, None,
      [console_error "Error opening input queue:";
       mq_Disc 3 cb_Disc;
       console_log "Retrying connection in 5 seconds...";
       setTimeout cb_startConsumer 5000]) /\
  connects (trace (run example_environment (start example_environment)
                 (flat_map (fun d => [(cb_Connx, d); (cb_startConsumer, d)])
                           [failed_delivery; failed_delivery; failed_delivery]))) = 4%nat.
Proof.
  destruct (retry_after_connect_or_open_failure example_environment 3 5) as (Hcb & Hrun).
  split; [reflexivity|]. split.
  - apply (Hcb failed_delivery None eq_refl).
  - apply (Hrun [failed_delivery; failed_delivery; failed_delivery]).
    repeat constructor.
Defined.

Lemma Buffer_slice0_length buf stop : (List.length (Buffer_slice0 buf stop) <= List.length buf)%nat.
Proof. unfold Buffer_slice0. rewrite length_firstn. lia. Qed.

Lemma Buffer_write_length buf data : List.length (Buffer_write buf data) = List.length buf.
Proof.
  unfold Buffer_write. rewrite length_firstn, length_app, length_skipn. lia.
Qed.

Lemma msgBuffer_length d : (List.length (msgBuffer d) <= 1024)%nat.
Proof.
  unfold msgBuffer. etransitivity; [apply Buffer_slice0_length|].
  rewrite Buffer_write_length. unfold Buffer_alloc. rewrite repeat_length. lia.
Qed.

Lemma skipn_repeat_byte k n : skipn k (repeat x00 n) = repeat x00 (n - k).
Proof.
  revert n. induction k as [|k IH]; intros n.
  - rewrite Nat.sub_0_r. reflexivity.
  - destruct n as [|n]; [reflexivity|]. cbn. apply IH.
Qed.

Lemma firstn_length_id {A} n (l : list A) :
  firstn n l = firstn (List.length (firstn n l)) l.
Proof.
  rewrite length_firstn. destruct (Nat.le_ge_cases n (List.length l)) as [H|H].
  - rewrite Nat.min_l by exact H. reflexivity.
  - rewrite Nat.min_r by exact H. rewrite firstn_all, firstn_all2 by exact H. reflexivity.
Qed.

(** The bytes handed to [processMessage] are the first bytes of what was
    received, followed by the zero bytes of the fresh buffer. *)
Lemma msgBuffer_prefix d :
  msgBuffer d =
  firstn (List.length (msgBuffer d))
         (getData d ++ repeat x00 (1024 - List.length (getData d))).
Proof.
  unfold msgBuffer, Buffer_slice0, Buffer_write, Buffer_alloc.
  rewrite skipn_repeat_byte, firstn_firstn. apply firstn_length_id.
Qed.

(** What [buf.slice(0, len)] holds for a length that is not negative: the
    first [min len 1024] bytes of the buffer. *)
Lemma msgBuffer_slice d :
  0 <= getLen d ->
  msgBuffer d =
  firstn (Z.to_nat (Z.min (getLen d) 1024))
         (getData d ++ repeat x00 (1024 - List.length (getData d))).
Proof.
  intros Hlen. unfold msgBuffer, Buffer_slice0.
  rewrite Buffer_write_length. unfold Buffer_write, Buffer_alloc.
  rewrite repeat_length, skipn_repeat_byte.
  destruct (Z.ltb_spec (getLen d) 0) as [|_]; [lia|].
  change (Z.of_nat 1024) with 1024.
  rewrite firstn_firstn. f_equal. lia.
Qed.

Lemma msgBuffer_slice_length d :
  0 <= getLen d -> List.length (msgBuffer d) = Z.to_nat (Z.min (getLen d) 1024).
Proof.
  intros Hlen. rewrite (msgBuffer_slice d Hlen), length_firstn, length_app, repeat_length.
  lia.
Qed.

(** C9.  On a successful receive [getMessage] reads into a buffer of 1024
    bytes and passes [msgBuffer d], the slice [buf.slice(0, len)], to
    [processMessage]: for the length [len] that the receive reports, the
    first [min len 1024] bytes of what was received (padded with the zero
    bytes of the fresh buffer when [len] exceeds it), so exactly [len] bytes
    when [len <= 1024] and never more than 1024.  A payload of more than
    1024 bytes is never what [processMessage] is given. *)
Theorem getMessage_passes_at_most_1024_bytes E hIn d g :
  getErr d = None ->
  getMessage E hIn d g =
    (emit (console_log "Polling for a message...") ;;
     emit (mq_GetSync hIn 16385 3000 1024) ;;
     emit (console_log "Message received, length: ") ;;
     processMessage E d (msgBuffer d) ;;
     emit (setImmediate (cb_getMessage hIn)))%js g /\
  (List.length (msgBuffer d) <= 1024)%nat /\
  msgBuffer d =
    firstn (List.length (msgBuffer d))
           (getData d ++ repeat x00 (1024 - List.length (getData d))) /\
  (0 <= getLen d ->
   List.length (msgBuffer d) = Z.to_nat (Z.min (getLen d) 1024) /\
   (getLen d <= 1024 -> Z.of_nat (List.length (msgBuffer d)) = getLen d) /\
   (getLen d <= Z.of_nat (List.length (getData d)) ->
    msgBuffer d = firstn (Z.to_nat (Z.min (getLen d) 1024)) (getData d))) /\
  (forall payload, (1024 < List.length payload)%nat -> msgBuffer d <> payload).
Proof.
  intros Hget. split; [apply getMessage_received; exact Hget|].
  split; [apply msgBuffer_length|]. split; [apply msgBuffer_prefix|].
  split.
  - intros Hlen. pose proof (msgBuffer_slice_length d Hlen) as HL.
    split; [exact HL|]. split.
    + intros Hcap. rewrite HL. lia.
    + intros Hdata. rewrite (msgBuffer_slice d Hlen), firstn_app.
      replace (Z.to_nat (Z.min (getLen d) 1024) - List.length (getData d))%nat
        with 0%nat by lia.
      rewrite firstn_O, List.app_nil_r. reflexivity.
  - intros payload Hlen Heq. pose proof (msgBuffer_length d) as H.
    rewrite Heq in H. lia.
Qed.

Lemma getMessage_passes_at_most_1024_bytes_witness :
  (List.length (msgBuffer long_delivery) = 1024%nat /\
   msgBuffer long_delivery = firstn 1024 (getData long_delivery) /\
   msgBuffer long_delivery <> getData long_delivery) /\
  List.length (msgBuffer example_delivery) = 3%nat.
Proof.
  destruct (getMessage_passes_at_most_1024_bytes example_environment 7 long_delivery
              None eq_refl) as (_ & _ & _ & Hlong & Hnever).
  destruct (Hlong ltac:(cbn; lia)) as (Hlen & _ & Hfirst).
  destruct (getMessage_passes_at_most_1024_bytes example_environment 7 example_delivery
              None eq_refl) as (_ & _ & _ & Hshort & _).
  destruct (Hshort ltac:(cbn; lia)) as (Hlen3 & _ & _).
  split; [split; [exact Hlen|split]|exact Hlen3].
  - apply Hfirst. cbn [getLen getData long_delivery]. rewrite repeat_length. lia.
  - apply Hnever. cbn [getData long_delivery]. rewrite repeat_length. lia.
Defined.

(** C10.  With [outQueueHandle] not set, [sendResponse] on any response
    object returns normally after one [console.error] call and no put, and
    leaves the global as it is; with the handle set it returns normally
    too, so the caller sees the same completion in both cases. *)
Theorem sendResponse_without_handle E d props :
  sendResponse E d (JObject props) None =
    (Returns tt, None,
     [console_error "Output queue handle is not available. Cannot send response."]) /\
  (forall hOut, exists t,
     sendResponse E d (JObject props) (Some hOut) = (Returns tt, Some hOut, t)).
Proof.
  split; [reflexivity|]. intros hOut. js_unfold. cbn.
  destruct (putErr d); eexists; reflexivity.
Qed.

(* ================================================================== *)
(** * Further properties of the consumer *)
(* ================================================================== *)

Lemma modPow_loop_terminates fuel :
  forall result base exponent modulus,
    (bitlen exponent <= fuel)%nat -> 0 <= exponent ->
    exists r, modPow_loop fuel result base exponent modulus = Some r.
Proof.
  induction fuel as [|fuel IH]; intros result base e m Hfuel He.
  - assert (e = 0).
    { destruct (Z.eq_dec e 0); [assumption|].
      pose proof (bitlen_pos e ltac:(lia)). lia. }
    subst e. eexists; reflexivity.
  - cbn [modPow_loop]. destruct (Z.gtb_spec e 0) as [Hpos|Hnp]; [|eexists; reflexivity].
    pose proof (bitlen_quot2 e Hpos) as Hlen.
    apply IH; [lia|]. rewrite Z.quot_div_nonneg by lia. apply Z.div_pos; lia.
Qed.

Lemma modPow_loop_nonpos fuel result base exponent modulus :
  exponent <= 0 -> modPow_loop fuel result base exponent modulus = Some result.
Proof.
  intros He. destruct fuel; cbn [modPow_loop];
    (destruct (Z.gtb_spec exponent 0); [lia|reflexivity]).
Qed.

Lemma modPow_no_divergence base exponent modulus :
  modPow base exponent modulus <> Diverges.
Proof.
  unfold modPow. destruct (modulus =? 1); [discriminate|].
  destruct (modulus =? 0); [discriminate|].
  destruct (Z.le_gt_cases 0 exponent) as [He|He].
  - destruct (modPow_loop_terminates (bitlen exponent) 1 (Z.rem base modulus)
                exponent modulus ltac:(lia) He) as (r & ->). discriminate.
  - rewrite modPow_loop_nonpos by lia. discriminate.
Qed.

Lemma squareLoop_no_divergence count : forall x n, squareLoop count x n <> Diverges.
Proof.
  induction count as [|count IH]; intros x n; cbn [squareLoop]; [discriminate|].
  pose proof (modPow_no_divergence x 2 n) as Hm.
  destruct (modPow x 2 n) as [x'|e|]; cbn [cbind]; try discriminate; try congruence.
  destruct (x' =? n - 1); [discriminate|apply IH].
Qed.

Lemma drawWitness_no_divergence r n : drawWitness r n <> Diverges.
Proof.
  unfold drawWitness.
  destruct (Math_floor (Number_mul r (Number_of_BigInt (n - 4)))) as [s|s| |s m e];
    cbn; try discriminate.
  destruct (0 <=? e); [discriminate|].
  destruct (Zpos m mod 2 ^ (- e) =? 0); discriminate.
Qed.

Lemma witnessLoop_no_divergence rnd n s d rounds :
  forall i, witnessLoop rnd n s d i rounds <> Diverges.
Proof.
  induction rounds as [|rounds IH]; intros i; cbn [witnessLoop]; [discriminate|].
  pose proof (drawWitness_no_divergence (rnd i) n) as Hd.
  destruct (drawWitness (rnd i) n) as [a|e|]; cbn [cbind]; try discriminate; try congruence.
  pose proof (modPow_no_divergence a d n) as Hm.
  destruct (modPow a d n) as [x|e|]; cbn [cbind]; try discriminate; try congruence.
  destruct ((x =? 1) || (x =? n - 1)); [apply IH|].
  pose proof (squareLoop_no_divergence (Z.to_nat (s - 1)) x n) as Hs.
  destruct (squareLoop (Z.to_nat (s - 1)) x n) as [[|]|e|]; cbn [cbind];
    try discriminate; try congruence; apply IH.
Qed.

Lemma millerRabin_no_divergence rnd n k : millerRabin rnd n k <> Diverges.
Proof.
  unfold millerRabin.
  destruct ((n =? 2) || (n =? 3)); [discriminate|].
  destruct (Z.ltb_spec n 2) as [|Hn]; cbn [orb]; [discriminate|].
  destruct (Z.rem n 2 =? 0); [discriminate|].
  destruct (factorTwos_correct (bitlen (n - 1)) 0 (n - 1) ltac:(lia) ltac:(lia) ltac:(lia))
    as (s & d & -> & _).
  apply witnessLoop_no_divergence.
Qed.

Lemma BigInt_of_value_diverges E v :
  BigInt_of_value E v = Diverges -> BigInt_of_object E v = Diverges.
Proof.
  destruct v as [| |b|x|s|items|props]; cbn; try discriminate; try (intros H; exact H).
  - destruct x as [sg|sg| |sg m e]; cbn; try discriminate.
    destruct (0 <=? e); [discriminate|].
    destruct (Zpos m mod 2 ^ (- e) =? 0); discriminate.
  - destruct (StringToBigInt E s); discriminate.
Qed.

(** Every way [processMessage] can end. *)
Lemma processMessage_outcome E d msg g :
  exists c t,
    processMessage E d msg g = (c, g, t) /\
    (forall e, c <> Throws e) /\
    scheduled t = [] /\
    (puts t <= 1)%nat /\
    (In handle_unavailable t -> g = None) /\
    (c = Diverges -> ~ builtins_terminate E) /\
    receives t = 0%nat.
Proof.
  js_unfold.
  destruct (JSON_parse E (Buffer_toString msg)) as [data|e|] eqn:Hparse; cbn.
  2: { do 2 eexists. split; [reflexivity|]. repeat split; try discriminate; try (cbn; lia).
       cbn. intros [H|[H|[]]]; discriminate. }
  2: { do 2 eexists. split; [reflexivity|]. repeat split; try discriminate; try (cbn; lia).
       - cbn. intros [H|[]]; discriminate.
       - intros _ [Hp _]. exact (Hp _ Hparse). }
  destruct (hasOwnProperty_id data) as [[|]|e|] eqn:Hid; cbn.
  2,3: (do 2 eexists; split; [reflexivity|]; repeat split; try discriminate; try (cbn; lia);
        cbn; intros [H|[H|[]]]; discriminate).
  2: { destruct data; cbn in Hid; try discriminate.
       destruct (has_own props "hasOwnProperty"); discriminate. }
  apply hasOwnProperty_id_true in Hid as (props & -> & _ & Hhas).
  apply has_own_true in Hhas as (id & Hidv).
  cbn [get_field]. rewrite Hidv.
  destruct (own_property props "value") as [value|] eqn:Hvalue; cbn.
  2: (do 2 eexists; split; [reflexivity|]; repeat split; try discriminate; try (cbn; lia);
      cbn; intros [H|[H|[]]]; discriminate).
  destruct (is_undefined value) eqn:Hundef; cbn.
  1: (do 2 eexists; split; [reflexivity|]; repeat split; try discriminate; try (cbn; lia);
      cbn; intros [H|[H|[]]]; discriminate).
  destruct (BigInt_of_value E value) as [n|e|] eqn:Hbig; cbn.
  2: (do 2 eexists; split; [reflexivity|]; repeat split; try discriminate; try (cbn; lia);
      cbn; intros [H|[H|[]]]; discriminate).
  2: { do 2 eexists. split; [reflexivity|]. repeat split; try discriminate; try (cbn; lia).
       - cbn. intros [H|[]]; discriminate.
       - intros _ [_ Hp]. exact (Hp _ (BigInt_of_value_diverges _ _ Hbig)). }
  pose proof (millerRabin_no_divergence (random d) n 5) as Hnd.
  destruct (millerRabin (random d) n 5) as [isPrime|e|] eqn:Hmr; cbn; [| |congruence].
  2: (do 2 eexists; split; [reflexivity|]; repeat split; try discriminate; try (cbn; lia);
      cbn; intros [H|[H|[]]]; discriminate).
  destruct (ToString_throws id) eqn:Hts; cbn.
  1: (do 2 eexists; split; [reflexivity|]; repeat split; try discriminate; try (cbn; lia);
      cbn; intros [H|[H|[]]]; discriminate).
  destruct g as [h|]; cbn.
  - destruct (putErr d); cbn;
      (do 2 eexists; split; [reflexivity|]; repeat split; try discriminate; try (cbn; lia);
       cbn; intros [H|[H|[H|[H|[]]]]]; discriminate).
  - do 2 eexists. split; [reflexivity|]. repeat split; try discriminate; cbn; lia.
Qed.

(** X1.  Within the range of doubles there are no false negatives: for a prime
    [n] with [n - 4] at most [Number.MAX_VALUE], [millerRabin] returns
    [true] for every round count and every sequence of random draws. *)
Theorem millerRabin_accepts_primes_in_double_range rnd n k :
  Z.prime n -> n - 4 <= Number_MAX_VALUE ->
  (forall i, is_random (rnd i) = true) ->
  millerRabin rnd n k = Returns true.
Proof. intros Hp Hmax Hr. apply millerRabin_prime; assumption. Qed.

Lemma millerRabin_accepts_primes_in_double_range_witness :
  millerRabin (fun _ => almost_one) 7919 5 = Returns true.
Proof.
  apply millerRabin_accepts_primes_in_double_range.
  - exact prime_7919.
  - apply Z.leb_le. vm_compute. reflexivity.
  - intros i. reflexivity.
Defined.

(** X2.  For [n >= 5] with [n - 4] at most [Number.MAX_VALUE], the witness
    [2n + BigInt(Math.floor(Math.random() * Number(n - 4n)))] is drawn and
    lies between 2 and [n - 3], whatever [Math.random()] gives in [0, 1). *)
Theorem drawWitness_between_2_and_n_minus_3 r n :
  is_random r = true -> 5 <= n -> n - 4 <= Number_MAX_VALUE ->
  exists a, drawWitness r n = Returns a /\ 2 <= a <= n - 3.
Proof. intros Hr Hn Hmax. apply drawWitness_range; assumption. Qed.

Lemma drawWitness_between_2_and_n_minus_3_witness :
  exists a, drawWitness almost_one 97 = Returns a /\ 2 <= a <= 97 - 3.
Proof.
  apply drawWitness_between_2_and_n_minus_3; [reflexivity|lia|].
  apply Z.leb_le. vm_compute. reflexivity.
Defined.

(** X3.  For an odd [n] of at least [2^1024 + 4] and at least one round,
    [millerRabin] throws a RangeError: [Number(n - 4n)] is [Infinity], and
    [BigInt] rejects the product. *)
Theorem millerRabin_throws_beyond_double_range rnd n k :
  (forall i, is_random (rnd i) = true) -> (1 <= k)%nat ->
  2 ^ 1024 + 4 <= n -> n mod 2 = 1 ->
  millerRabin rnd n k = Throws RangeError.
Proof. intros Hr Hk Hn Hodd. apply millerRabin_overflow; assumption. Qed.

Lemma millerRabin_throws_beyond_double_range_witness :
  millerRabin (fun _ => almost_one) (2 ^ 1024 + 5) 1 = Throws RangeError.
Proof.
  apply millerRabin_throws_beyond_double_range.
  - intros i. reflexivity.
  - lia.
  - apply Z.leb_le. vm_compute. reflexivity.
  - vm_compute. reflexivity.
Defined.

Lemma squareLoop_returns count : forall x n,
  0 <= x -> 1 <= n -> exists b, squareLoop count x n = Returns b.
Proof.
  induction count as [|count IH]; intros x n Hx Hn; cbn [squareLoop]; [eexists; reflexivity|].
  rewrite modPow_correct by lia. cbn [cbind].
  destruct (x ^ 2 mod n =? n - 1); [eexists; reflexivity|].
  apply IH; [|exact Hn]. apply Z.mod_pos_bound; lia.
Qed.

Lemma witnessLoop_returns rnd n s d :
  5 <= n -> n - 4 <= Number_MAX_VALUE -> 0 <= d ->
  (forall i, is_random (rnd i) = true) ->
  forall rounds i, exists b, witnessLoop rnd n s d i rounds = Returns b.
Proof.
  intros Hn Hmax Hd Hrand. induction rounds as [|rounds IH]; intros i;
    cbn [witnessLoop]; [eexists; reflexivity|].
  destruct (drawWitness_range (rnd i) n (Hrand i) Hn Hmax) as (a & -> & Ha).
  cbn [cbind]. rewrite modPow_correct by lia. cbn [cbind].
  destruct ((a ^ d mod n =? 1) || (a ^ d mod n =? n - 1)); [apply IH|].
  destruct (squareLoop_returns (Z.to_nat (s - 1)) (a ^ d mod n) n) as ([|] & ->);
    [apply Z.mod_pos_bound; lia|lia| |]; cbn [cbind]; [apply IH|eexists; reflexivity].
Qed.

(** X4.  For every integer [n] (negative, zero, composite or prime) with [n - 4]
    at most [Number.MAX_VALUE], [millerRabin] terminates and returns a
    boolean: it neither throws nor loops, whatever the random draws. *)
Theorem millerRabin_returns_a_boolean_in_double_range rnd n k :
  n - 4 <= Number_MAX_VALUE ->
  (forall i, is_random (rnd i) = true) ->
  exists b, millerRabin rnd n k = Returns b.
Proof.
  intros Hmax Hrand. unfold millerRabin.
  destruct (Z.eqb_spec n 2); [eexists; reflexivity|].
  destruct (Z.eqb_spec n 3); [eexists; reflexivity|]. cbn [orb].
  destruct (Z.ltb_spec n 2); [eexists; reflexivity|]. cbn [orb].
  rewrite Z.rem_mod_nonneg by lia.
  destruct (Z.eqb_spec (n mod 2) 0) as [|Hodd]; [eexists; reflexivity|].
  assert (n <> 4) by (intros ->; apply Hodd; reflexivity).
  destruct (factorTwos_correct (bitlen (n - 1)) 0 (n - 1) ltac:(lia) ltac:(lia) ltac:(lia))
    as (s & d & -> & _ & Hd & _).
  apply witnessLoop_returns; try assumption; lia.
Qed.

Lemma millerRabin_returns_a_boolean_in_double_range_witness :
  exists b, millerRabin (fun _ => almost_one) 561 5 = Returns b.
Proof.
  apply millerRabin_returns_a_boolean_in_double_range.
  - apply Z.leb_le. vm_compute. reflexivity.
  - intros i. reflexivity.
Defined.

(** X5.  With a round count of zero the witness loop is skipped, and
    [millerRabin] returns [true] for every odd [n > 3], composite or not. *)
Theorem millerRabin_zero_rounds rnd n :
  3 < n -> n mod 2 = 1 -> millerRabin rnd n 0 = Returns true.
Proof.
  intros Hn Hodd. unfold millerRabin.
  destruct (Z.eqb_spec n 2); [reflexivity|].
  destruct (Z.eqb_spec n 3); [reflexivity|]. cbn [orb].
  destruct (Z.ltb_spec n 2); [lia|]. cbn [orb].
  rewrite Z.rem_mod_nonneg, Hodd by lia. cbn [Z.eqb].
  destruct (factorTwos_correct (bitlen (n - 1)) 0 (n - 1) ltac:(lia) ltac:(lia) ltac:(lia))
    as (s & d & -> & _).
  reflexivity.
Qed.

Lemma millerRabin_zero_rounds_witness :
  millerRabin (fun _ => almost_one) 9 0 = Returns true.
Proof. apply millerRabin_zero_rounds; [lia|reflexivity]. Defined.

(** X8.  With an exponent that is zero or negative the loop of [modPow] is not
    entered: the result is 1 for every base and every modulus other than 0
    and 1 (so also for modulus -1, where the remainder would be 0). *)
Theorem modPow_nonpositive_exponent base exponent modulus :
  exponent <= 0 -> modulus <> 0 -> modulus <> 1 ->
  modPow base exponent modulus = Returns 1.
Proof.
  intros He H0 H1. unfold modPow.
  destruct (Z.eqb_spec modulus 1); [contradiction|].
  destruct (Z.eqb_spec modulus 0); [contradiction|].
  rewrite modPow_loop_nonpos by exact He. reflexivity.
Qed.

Lemma modPow_nonpositive_exponent_witness : modPow 3 (-1) 7 = Returns 1.
Proof. apply modPow_nonpositive_exponent; lia. Defined.

(** X6.  The first loop of [millerRabin] ends, for every [n >= 2], with
    [n - 1 = d * 2^s], [d] odd and [s >= 0]. *)
Theorem millerRabin_factors_out_twos n :
  2 <= n ->
  exists s d, factorTwos (bitlen (n - 1)) 0 (n - 1) = Some (s, d) /\
              0 <= s /\ d mod 2 = 1 /\ n - 1 = d * 2 ^ s.
Proof.
  intros Hn.
  destruct (factorTwos_correct (bitlen (n - 1)) 0 (n - 1) ltac:(lia) ltac:(lia) ltac:(lia))
    as (s & d & Heq & Hs & _ & Hodd & Hdec).
  exists s, d. rewrite Z.sub_0_r in Hdec. auto.
Qed.

Lemma millerRabin_factors_out_twos_witness :
  exists s d, factorTwos (bitlen (97 - 1)) 0 (97 - 1) = Some (s, d) /\
              0 <= s /\ d mod 2 = 1 /\ 97 - 1 = d * 2 ^ s.
Proof. apply millerRabin_factors_out_twos. lia. Defined.

(** X9.  Whatever the message, [processMessage] lets no exception escape and
    leaves [outQueueHandle] as it was; when the built-ins terminate it
    returns normally. *)
Theorem processMessage_never_throws E d msg g c g' t :
  processMessage E d msg g = (c, g', t) ->
  g' = g /\ (forall e, c <> Throws e) /\ (builtins_terminate E -> c = Returns tt).
Proof.
  intros H. destruct (processMessage_outcome E d msg g) as (c0 & t0 & Heq & Hno & _ & _ & _ & Hdiv & _).
  rewrite Heq in H. injection H as <- <- <-. split; [reflexivity|]. split; [exact Hno|].
  intros Hterm. destruct c0 as [[]|e|]; [reflexivity| |].
  - exfalso. exact (Hno e eq_refl).
  - exfalso. exact (Hdiv eq_refl Hterm).
Qed.

(** X10.  Whatever the message, [processMessage] puts at most one message on the
    output queue and leaves no callback with the event loop. *)
Theorem processMessage_puts_at_most_once E d msg g c g' t :
  processMessage E d msg g = (c, g', t) ->
  (puts t <= 1)%nat /\ scheduled t = [].
Proof.
  intros H. destruct (processMessage_outcome E d msg g) as (c0 & t0 & Heq & _ & Hs & Hp & _).
  rewrite Heq in H. injection H as <- <- <-. split; assumption.
Qed.

Lemma processMessage_never_throws_witness :
  Some 9 = Some 9 /\
  (forall e, Returns tt <> Throws e) /\
  (builtins_terminate example_environment -> Returns tt = Returns tt).
Proof.
  apply (processMessage_never_throws example_environment example_delivery
           [x7b; x7d; x0a] (Some 9) (Returns tt) (Some 9)
           [console_log "Processing a message..."; console_log "Record ";
            mq_PutSync 9 4 "97 prime"; console_log "Response sent to "]).
  vm_compute. reflexivity.
Defined.

Lemma processMessage_puts_at_most_once_witness :
  (puts [console_log "Processing a message..."; console_log "Record ";
         mq_PutSync 9%Z 4%Z "97 prime"; console_log "Response sent to "] <= 1)%nat /\
  scheduled [console_log "Processing a message..."; console_log "Record ";
             mq_PutSync 9 4 "97 prime"; console_log "Response sent to "] = [].
Proof.
  apply (processMessage_puts_at_most_once example_environment example_delivery
           [x7b; x7d; x0a] (Some 9) (Returns tt) (Some 9)).
  vm_compute. reflexivity.
Defined.

(** X11.  A record with an [id] that converts to a string and a [value] that
    [BigInt] accepts, for which [millerRabin] returns, is answered: with the
    handle set, [processMessage] makes exactly one put, of the serialized
    [{id, value, prime}], with MQPMO_NO_SYNCPOINT, and then logs the success
    or the failure of that put; a failed put is not retried. *)
Theorem processMessage_answers_well_formed_record
        E d msg hOut props id value n isPrime :
  JSON_parse E (Buffer_toString msg) = Returns (JObject props) ->
  has_own props "hasOwnProperty" = false ->
  own_property props "id" = Some id ->
  own_property props "value" = Some value ->
  is_undefined value = false ->
  BigInt_of_value E value = Returns n ->
  millerRabin (random d) n 5 = Returns isPrime ->
  ToString_throws id = false ->
  processMessage E d msg (Some hOut) =
  (Returns tt, Some hOut,
   [console_log "Processing a message..."; console_log "Record ";
    mq_PutSync hOut MQPMO_NO_SYNCPOINT (JSON_stringify E (response id value isPrime));
    match putErr d with
    | Some _ => console_error "Error putting message to output queue:"
    | None => console_log "Response sent to "
    end]).
Proof. apply processMessage_answer. Qed.

Lemma processMessage_answers_well_formed_record_witness :
  processMessage example_environment example_delivery [x7b; x7d; x0a] (Some 9) =
  (Returns tt, Some 9,
   [console_log "Processing a message..."; console_log "Record ";
    mq_PutSync 9 MQPMO_NO_SYNCPOINT
      (JSON_stringify example_environment
         (response (JNumber (Number_of_BigInt 1)) (JString "97") true));
    console_log "Response sent to "]).
Proof.
  apply (processMessage_answers_well_formed_record example_environment example_delivery
           [x7b; x7d; x0a] 9%Z
           [("id"%string, JNumber (Number_of_BigInt 1)); ("value"%string, JString "97")]
           (JNumber (Number_of_BigInt 1)) (JString "97") 97%Z true);
    vm_compute; reflexivity.
Defined.

(** X12.  A well-formed record whose value is a prime within the range of doubles
    is answered with [prime: true], whatever the random draws. *)
Theorem prime_value_is_answered_prime E d msg hOut props id value n :
  JSON_parse E (Buffer_toString msg) = Returns (JObject props) ->
  has_own props "hasOwnProperty" = false ->
  own_property props "id" = Some id ->
  own_property props "value" = Some value ->
  is_undefined value = false ->
  ToString_throws id = false ->
  BigInt_of_value E value = Returns n ->
  Z.prime n -> n - 4 <= Number_MAX_VALUE ->
  (forall i, is_random (random d i) = true) ->
  exists last,
    processMessage E d msg (Some hOut) =
    (Returns tt, Some hOut,
     [console_log "Processing a message..."; console_log "Record ";
      mq_PutSync hOut MQPMO_NO_SYNCPOINT (JSON_stringify E (response id value true));
      last]).
Proof.
  intros Hparse Hh Hid Hvalue Hundef Hts Hbig Hp Hmax Hrand.
  eexists. eapply processMessage_answer; try eassumption.
  apply millerRabin_prime; assumption.
Qed.

Lemma prime_value_is_answered_prime_witness :
  exists last,
    processMessage example_environment example_delivery [x7b; x7d; x0a] (Some 9) =
    (Returns tt, Some 9,
     [console_log "Processing a message..."; console_log "Record ";
      mq_PutSync 9 MQPMO_NO_SYNCPOINT
        (JSON_stringify example_environment
           (response (JNumber (Number_of_BigInt 1)) (JString "97") true));
      last]).
Proof.
  apply (prime_value_is_answered_prime example_environment example_delivery
           [x7b; x7d; x0a] 9%Z
           [("id"%string, JNumber (Number_of_BigInt 1)); ("value"%string, JString "97")]
           (JNumber (Number_of_BigInt 1)) (JString "97") 97%Z);
    try reflexivity.
  - exact prime_97.
  - apply Z.leb_le. vm_compute. reflexivity.
Defined.

(** X13.  A well-formed record whose value is below 2, or even and above 2, is
    answered with [prime: false], whatever its size. *)
Theorem even_or_small_value_is_answered_not_prime
        E d msg hOut props id value n :
  JSON_parse E (Buffer_toString msg) = Returns (JObject props) ->
  has_own props "hasOwnProperty" = false ->
  own_property props "id" = Some id ->
  own_property props "value" = Some value ->
  is_undefined value = false ->
  ToString_throws id = false ->
  BigInt_of_value E value = Returns n ->
  n < 2 \/ (2 < n /\ Z.even n = true) ->
  exists last,
    processMessage E d msg (Some hOut) =
    (Returns tt, Some hOut,
     [console_log "Processing a message..."; console_log "Record ";
      mq_PutSync hOut MQPMO_NO_SYNCPOINT (JSON_stringify E (response id value false));
      last]).
Proof.
  intros Hparse Hh Hid Hvalue Hundef Hts Hbig Hn.
  eexists. eapply processMessage_answer; try eassumption.
  unfold millerRabin.
  destruct (Z.eqb_spec n 2); [lia|].
  destruct (Z.eqb_spec n 3) as [->|]; [destruct Hn as [|[_ Hev]]; [lia|discriminate Hev]|].
  cbn [orb]. destruct (Z.ltb_spec n 2); [reflexivity|]. cbn [orb].
  destruct Hn as [|[_ Hev]]; [lia|].
  rewrite Z.rem_mod_nonneg, Zmod_even, Hev by lia. reflexivity.
Qed.

(** X14.  When [JSON.parse] throws, [processMessage] logs the error and returns
    normally, with no put. *)
Theorem unparsable_text_is_dropped E d msg g e :
  JSON_parse E (Buffer_toString msg) = Throws e ->
  processMessage E d msg g =
  (Returns tt, g,
   [console_log "Processing a message..."; console_error "Error parsing JSON:"]).
Proof. intros H. js_unfold. rewrite H. reflexivity. Qed.

(** X15.  A record whose value is an odd integer of at least [2^1024 + 4] gets no
    answer: the RangeError of [millerRabin] is caught by the outer handler
    of [processMessage], which logs it as a JSON parsing error. *)
Theorem value_beyond_double_range_is_dropped E d msg g props id value n :
  JSON_parse E (Buffer_toString msg) = Returns (JObject props) ->
  has_own props "hasOwnProperty" = false ->
  own_property props "id" = Some id ->
  own_property props "value" = Some value ->
  is_undefined value = false ->
  BigInt_of_value E value = Returns n ->
  2 ^ 1024 + 4 <= n -> n mod 2 = 1 ->
  (forall i, is_random (random d i) = true) ->
  processMessage E d msg g =
  (Returns tt, g,
   [console_log "Processing a message..."; console_error "Error parsing JSON:"]).
Proof.
  intros Hparse Hh Hid Hvalue Hundef Hbig Hn Hodd Hrand. js_unfold.
  rewrite Hparse. cbn. unfold has_own in *. rewrite Hid, Hvalue in *.
  destruct (own_property props "hasOwnProperty"); [discriminate|]. cbn.
  rewrite Hundef. cbn. rewrite Hbig. cbn.
  rewrite (millerRabin_overflow (random d) n 5 Hrand ltac:(lia) Hn Hodd). reflexivity.
Qed.

(** X16.  A record with an own property named [hasOwnProperty] is dropped even
    when it has an [id] and a [value]: the call [data.hasOwnProperty(...)]
    throws, and the outer handler logs it. *)
Theorem record_with_own_hasOwnProperty_is_dropped E d msg g props :
  JSON_parse E (Buffer_toString msg) = Returns (JObject props) ->
  has_own props "hasOwnProperty" = true ->
  processMessage E d msg g =
  (Returns tt, g,
   [console_log "Processing a message..."; console_error "Error parsing JSON:"]).
Proof.
  intros Hparse Hh. js_unfold. rewrite Hparse. cbn. rewrite Hh. reflexivity.
Qed.

(** X17.  A record whose [id] does not convert to a string is dropped after the
    primality test: the template literal of the log line throws, and no
    answer is put. *)
Theorem record_with_unprintable_id_is_dropped E d msg g props id value n isPrime :
  JSON_parse E (Buffer_toString msg) = Returns (JObject props) ->
  has_own props "hasOwnProperty" = false ->
  own_property props "id" = Some id ->
  own_property props "value" = Some value ->
  is_undefined value = false ->
  BigInt_of_value E value = Returns n ->
  millerRabin (random d) n 5 = Returns isPrime ->
  ToString_throws id = true ->
  processMessage E d msg g =
  (Returns tt, g,
   [console_log "Processing a message..."; console_error "Error parsing JSON:"]).
Proof.
  intros Hparse Hh Hid Hvalue Hundef Hbig Hmr Hts. js_unfold.
  rewrite Hparse. cbn. unfold has_own in *. rewrite Hid, Hvalue in *.
  destruct (own_property props "hasOwnProperty"); [discriminate|]. cbn.
  rewrite Hundef. cbn. rewrite Hbig. cbn. rewrite Hmr. cbn. rewrite Hts. reflexivity.
Qed.

(** X18.  After a receive that brought a message, [getMessage] calls
    [processMessage] and then, whatever became of the message, leaves
    exactly one callback with the event loop: itself, through
    [setImmediate]; it issued one receive and at most one put. *)
Theorem getMessage_reschedules_after_every_message E hIn d g :
  builtins_terminate E -> getErr d = None ->
  exists t,
    getMessage E hIn d g = (Returns tt, g, t ++ [setImmediate (cb_getMessage hIn)]) /\
    scheduled t = [] /\ (puts t <= 1)%nat /\ receives t = 1%nat.
Proof.
  intros Hterm Hget. rewrite (getMessage_received E hIn d g Hget).
  destruct (processMessage_outcome E d (msgBuffer d) g)
    as (c & t & Heq & Hno & Hs & Hp & _ & Hdiv & Hrcv).
  assert (Hc : c = Returns tt).
  { destruct c as [[]|e|]; [reflexivity| |].
    - exfalso. exact (Hno e eq_refl).
    - exfalso. exact (Hdiv eq_refl Hterm). }
  subst c. unfold bind at 1 2 3 4. unfold emit at 1 2 3. rewrite Heq. cbn.
  exists ([console_log "Polling for a message..."; mq_GetSync hIn 16385 3000 1024;
           console_log "Message received, length: "] ++ t).
  split; [rewrite <- app_assoc; reflexivity|].
  cbn. rewrite Hrcv. auto.
Qed.

Lemma scheduled_app t1 t2 : scheduled (t1 ++ t2) = (scheduled t1 ++ scheduled t2)%list.
Proof.
  induction t1 as [|e t1 IH]; [reflexivity|].
  destruct e; cbn; rewrite IH; reflexivity.
Qed.

Lemma callback_eqb_eq a b : callback_eqb a b = true -> a = b.
Proof.
  destruct a, b; cbn; try discriminate; intros H; try reflexivity.
  - apply Z.eqb_eq in H. congruence.
  - apply andb_true_iff in H as [H1 H2]. apply Z.eqb_eq in H1, H2. congruence.
  - apply Z.eqb_eq in H. congruence.
Qed.

Lemma existsb_callback_In cb l : existsb (callback_eqb cb) l = true -> In cb l.
Proof.
  intros H. apply existsb_exists in H as (x & Hin & Heq).
  apply callback_eqb_eq in Heq. subst. exact Hin.
Qed.

Lemma In_remove_first x cb l : In x (remove_first cb l) -> In x l.
Proof.
  induction l as [|y l IH]; cbn; [auto|].
  destruct (callback_eqb cb y); cbn; intuition.
Qed.

(** Every way [getMessage] can end. *)
Lemma getMessage_outcome E hIn d g :
  exists c t,
    getMessage E hIn d g = (c, g, t) /\
    (forall e, c <> Throws e) /\
    (In handle_unavailable t -> g = None) /\
    (forall cb, In cb (scheduled t) -> cb = cb_getMessage hIn) /\
    (builtins_terminate E ->
     c = Returns tt /\ (scheduled t = [cb_getMessage hIn] \/ scheduled t = [])).
Proof.
  destruct (getErr d) as [err|] eqn:Hget.
  - unfold getMessage. rewrite Hget.
    destruct (mqrc err =? MQRC_NO_MSG_AVAILABLE);
      (do 2 eexists; split; [reflexivity|]; cbn; repeat split; try discriminate;
       try (intros [H|[H|[H|[H|[]]]]]; discriminate);
       try (intros [H|[H|[H|[]]]]; discriminate);
       try (intros cb [H|[]]; congruence); try (intros cb []); auto).
  - rewrite (getMessage_received E hIn d g Hget).
    destruct (processMessage_outcome E d (msgBuffer d) g)
      as (c & t & Heq & Hno & Hs & Hp & Hun & Hdiv & Hrcv).
    unfold bind at 1 2 3 4. unfold emit at 1 2 3. rewrite Heq. cbn.
    destruct c as [[]|e|]; cbn.
    + do 2 eexists. split; [reflexivity|]. split; [discriminate|]. split; [|split].
      * intros [H|[H|[H|H]]]; try discriminate. apply in_app_or in H as [H|[H|[]]];
          [auto|discriminate].
      * cbn [scheduled]. rewrite scheduled_app, Hs. cbn. intros cb [H|[]]. congruence.
      * intros _. split; [reflexivity|]. cbn [scheduled].
        rewrite scheduled_app, Hs. left; reflexivity.
    + exfalso. exact (Hno e eq_refl).
    + do 2 eexists. split; [reflexivity|]. split; [discriminate|]. split; [|split].
      * intros [H|[H|[H|H]]]; try discriminate. auto.
      * cbn [scheduled]. rewrite Hs. intros cb [].
      * intros Hterm. exfalso. exact (Hdiv eq_refl Hterm).
Qed.

Lemma step_polling E hIn p cb d :
  builtins_terminate E ->
  (pending p = [cb_getMessage hIn] \/ pending p = []) -> crashed p = false ->
  match step E p cb d with
  | Some p' =>
      (pending p' = [cb_getMessage hIn] \/ pending p' = []) /\ crashed p' = false /\
      outQueueHandle p' = outQueueHandle p
  | None => True
  end.
Proof.
  intros Hterm Hp Hc. unfold step. rewrite Hc.
  destruct (existsb (callback_eqb cb) (pending p)) eqn:Hex; [|exact I].
  destruct Hp as [Hp|Hp]; rewrite Hp in *; [|discriminate Hex].
  apply existsb_callback_In in Hex as [<-|[]]. cbn [run_callback].
  destruct (getMessage_outcome E hIn d (outQueueHandle p)) as (c & t & -> & _ & _ & _ & Hret).
  destruct (Hret Hterm) as (-> & Hs).
  cbn [pending crashed outQueueHandle remove_first]. rewrite callback_eqb_refl.
  cbn [app]. auto.
Qed.

(** X20.  From a state with one poller pending (or none), every sequence of
    turns leaves one poller pending or none, lets no exception escape, and
    leaves [outQueueHandle] as it was. *)
Theorem polling_loop_never_forks_nor_crashes E hIn turns :
  builtins_terminate E ->
  forall p,
    (pending p = [cb_getMessage hIn] \/ pending p = []) -> crashed p = false ->
    let p' := run E p turns in
    (pending p' = [cb_getMessage hIn] \/ pending p' = []) /\ crashed p' = false /\
    outQueueHandle p' = outQueueHandle p.
Proof.
  intros Hterm. induction turns as [|[cb d] turns IH]; intros p Hp Hc; cbn [run].
  - auto.
  - pose proof (step_polling E hIn p cb d Hterm Hp Hc) as Hstep.
    destruct (step E p cb d) as [p1|].
    + destruct Hstep as (Hp1 & Hc1 & Hh1).
      destruct (IH p1 Hp1 Hc1) as (H1 & H2 & H3). cbv zeta. rewrite H3, Hh1. auto.
    + apply IH; assumption.
Qed.

(** X21.  When the connection and both opens succeed, the consumer saves the
    handle of the output queue and issues its first receive in the same
    turn; the input queue is opened with
    [MQOO_INPUT_AS_Q_DEF | MQOO_OUTPUT = 17], the output queue with
    [MQOO_OUTPUT = 16]. *)
Theorem startup_reaches_polling E d1 d2 d3 hConn hIn hOut :
  result d1 = inr hConn -> result d2 = inr hIn -> result d3 = inr hOut ->
  is_no_message d3 = true ->
  run E (start E)
      [(cb_Connx, d1); (cb_OpenInput hConn, d2); (cb_OpenOutput hConn hIn, d3)] =
  {| outQueueHandle := Some hOut;
     pending := [cb_getMessage hIn];
     trace :=
       [console_log "Starting consumer..."; mq_Connx (qMgr E) cb_Connx;
        console_log "Connected to queue manager ";
        mq_Open hConn (inputQueueName E) 17 (cb_OpenInput hConn);
        console_log "Input queue opened.";
        mq_Open hConn (outputQueueName E) 16 (cb_OpenOutput hConn hIn);
        console_log "Output queue opened.";
        console_log "Polling for a message...";
        mq_GetSync hIn 16385 3000 1024;
        console_log "No message available. Polling again...";
        setImmediate (cb_getMessage hIn)];
     crashed := false |}.
Proof.
  intros H1 H2 H3 Hno. rewrite start_state.
  set (t0 := [console_log "Starting consumer..."; mq_Connx (qMgr E) cb_Connx]).
  set (t1 := (t0 ++ [console_log "Connected to queue manager ";
                     mq_Open hConn (inputQueueName E) 17 (cb_OpenInput hConn)])%list).
  set (t2 := (t1 ++ [console_log "Input queue opened.";
                     mq_Open hConn (outputQueueName E) 16 (cb_OpenOutput hConn hIn)])%list).
  assert (S1 : step E {| outQueueHandle := None; pending := [cb_Connx]; trace := t0;
                         crashed := false |} cb_Connx d1 =
               Some {| outQueueHandle := None; pending := [cb_OpenInput hConn];
                       trace := t1; crashed := false |}).
  { unfold step. cbn [crashed pending existsb callback_eqb orb run_callback outQueueHandle].
    unfold Connx_callback. rewrite H1. reflexivity. }
  assert (S2 : step E {| outQueueHandle := None; pending := [cb_OpenInput hConn];
                         trace := t1; crashed := false |} (cb_OpenInput hConn) d2 =
               Some {| outQueueHandle := None; pending := [cb_OpenOutput hConn hIn];
                       trace := t2; crashed := false |}).
  { unfold step. cbn [crashed pending existsb outQueueHandle].
    rewrite callback_eqb_refl. cbn [orb run_callback].
    unfold OpenInput_callback. rewrite H2. cbn. rewrite Z.eqb_refl. reflexivity. }
  assert (S3 : step E {| outQueueHandle := None; pending := [cb_OpenOutput hConn hIn];
                         trace := t2; crashed := false |} (cb_OpenOutput hConn hIn) d3 =
               Some {| outQueueHandle := Some hOut; pending := [cb_getMessage hIn];
                       trace := (t2 ++ [console_log "Output queue opened.";
                          console_log "Polling for a message...";
                          mq_GetSync hIn 16385 3000 1024;
                          console_log "No message available. Polling again...";
                          setImmediate (cb_getMessage hIn)])%list;
                       crashed := false |}).
  { unfold step. cbn [crashed pending existsb outQueueHandle].
    rewrite callback_eqb_refl. cbn [orb run_callback].
    unfold OpenOutput_callback. rewrite H3.
    unfold bind at 1 2. unfold emit at 1. unfold write_outQueueHandle.
    rewrite (getMessage_no_message E hIn d3 _ Hno).
    cbn [pending remove_first]. rewrite callback_eqb_refl. reflexivity. }
  cbn [run]. rewrite S1, S2, S3. reflexivity.
Qed.

Lemma step_handle_safe E p cb d p' :
  handle_safe p -> step E p cb d = Some p' -> handle_safe p'.
Proof.
  intros [Htr Hpend]. unfold step. destruct (crashed p); [discriminate|].
  destruct (existsb (callback_eqb cb) (pending p)) eqn:Hex; [|discriminate].
  apply existsb_callback_In in Hex.
  assert (Hgen : forall c g t,
    run_callback E cb d (outQueueHandle p) = (c, g, t) ->
    ~ In handle_unavailable t /\
    (forall hIn, In (cb_getMessage hIn) (scheduled t) -> g <> None) /\
    (outQueueHandle p <> None -> g <> None)).
  { intros c g t Hrun. destruct cb as [| |hConn|hConn hIn| |hIn]; cbn [run_callback] in Hrun.
    - unfold startConsumer, bind, emit in Hrun. cbn in Hrun. injection Hrun as <- <- <-.
      repeat split; cbn; auto; try (intros [H|[H|[]]]; discriminate);
        intros hIn [H|[]]; discriminate.
    - unfold Connx_callback in Hrun. destruct (result d); cbn in Hrun;
        injection Hrun as <- <- <-;
        (repeat split; cbn; auto;
         try (intros [H|[H|[H|[]]]]; discriminate); try (intros [H|[H|[]]]; discriminate);
         intros hIn [H|[]]; discriminate).
    - unfold OpenInput_callback in Hrun. destruct (result d); cbn in Hrun;
        injection Hrun as <- <- <-;
        (repeat split; cbn; auto;
         try (intros [H|[H|[H|[H|[]]]]]; discriminate); try (intros [H|[H|[]]]; discriminate);
         try (intros hIn' [H|[H|[]]]; discriminate); intros hIn' [H|[]]; discriminate).
    - unfold OpenOutput_callback in Hrun. destruct (result d) as [err|hOut].
      + cbn in Hrun. injection Hrun as <- <- <-.
        repeat split; cbn; auto;
          try (intros [H|[H|[H|[H|[]]]]]; discriminate);
          intros hIn' [H|[H|[]]]; discriminate.
      + unfold bind at 1 2 in Hrun. unfold emit at 1 in Hrun.
        unfold write_outQueueHandle in Hrun.
        destruct (getMessage_outcome E hIn d (Some hOut)) as (c0 & t0 & Hg & _ & Hun & _).
        rewrite Hg in Hrun. injection Hrun as <- <- <-.
        repeat split; try discriminate.
        intros [H|H]; [discriminate|]. cbn in H. specialize (Hun H). discriminate.
    - unfold Disc_callback in Hrun. destruct (discErr d); cbn in Hrun;
        injection Hrun as <- <- <-;
        (repeat split; cbn; auto; try (intros [H|[]]; discriminate); intros hIn []).
    - destruct (getMessage_outcome E hIn d (outQueueHandle p)) as (c0 & t0 & Hg & _ & Hun & _).
      rewrite Hg in Hrun. injection Hrun as <- <- <-.
      pose proof (Hpend hIn Hex) as Hsome.
      repeat split; auto. }
  destruct (run_callback E cb d (outQueueHandle p)) as [[c g] t] eqn:Hrun.
  destruct (Hgen c g t eq_refl) as (Ht & Hsched & Hkeep).
  intros H. injection H as <-. split; cbn [trace pending outQueueHandle].
  - intros Hin. apply in_app_or in Hin as [Hin|Hin]; contradiction.
  - intros hIn Hin. apply in_app_or in Hin as [Hin|Hin].
    + apply Hkeep. apply (Hpend hIn). eapply In_remove_first; exact Hin.
    + apply (Hsched hIn Hin).
Qed.

(** X22.  In no run of the consumer from its start does [sendResponse] find
    [outQueueHandle] unset: the line about the missing handle is never
    logged, since polling starts only after the handle is saved. *)
Theorem handle_is_always_available_when_replying E turns :
  ~ In handle_unavailable (trace (run E (start E) turns)).
Proof.
  assert (Hrun : forall p, handle_safe p -> handle_safe (run E p turns)).
  { induction turns as [|[cb d] turns IH]; intros p Hp; cbn [run]; [exact Hp|].
    destruct (step E p cb d) as [p1|] eqn:Hstep; [|apply IH; exact Hp].
    apply IH. eapply step_handle_safe; eassumption. }
  apply Hrun. rewrite start_state. split; cbn.
  - intros [H|[H|[]]]; discriminate.
  - intros hIn [H|[]]. discriminate.
Qed.

(** X19.  A message of at most 1024 bytes whose length is reported as it is
    reaches [processMessage] unchanged. *)
Theorem msgBuffer_of_a_message_that_fits d :
  (List.length (getData d) <= 1024)%nat ->
  getLen d = Z.of_nat (List.length (getData d)) ->
  msgBuffer d = getData d.
Proof.
  intros Hlen Hget. unfold msgBuffer, Buffer_slice0, Buffer_write, Buffer_alloc.
  rewrite Hget, firstn_firstn.
  assert (Hl : List.length (firstn (List.length (repeat x00 1024))
                 (getData d ++ skipn (List.length (getData d)) (repeat x00 1024))) = 1024%nat).
  { rewrite length_firstn, length_app, length_skipn, repeat_length. lia. }
  rewrite Hl.
  destruct (Z.ltb_spec (Z.of_nat (List.length (getData d))) 0) as [|_]; [lia|].
  rewrite Z.min_l by lia. rewrite Nat2Z.id, repeat_length, Nat.min_l by lia.
  rewrite firstn_app, Nat.sub_diag, firstn_O, app_nil_r. apply firstn_all.
Qed.

Lemma example_builtins_terminate : builtins_terminate example_environment.
Proof. split; intros; discriminate. Qed.

Lemma rem_pow_idemp a b m k :
  m <> 0 -> 0 <= k -> Z.rem (a * Z.rem b m ^ k) m = Z.rem (a * b ^ k) m.
Proof.
  intros Hm Hk. revert a. pattern k. apply natlike_ind; [| |exact Hk].
  - intros a. reflexivity.
  - intros j Hj IH a. rewrite !Z.pow_succ_r by exact Hj.
    replace (a * (Z.rem b m * Z.rem b m ^ j)) with ((a * Z.rem b m) * Z.rem b m ^ j) by ring.
    rewrite IH. replace (a * Z.rem b m * b ^ j) with (b ^ j * a * Z.rem b m) by ring.
    rewrite Z.mul_rem_idemp_r by exact Hm. f_equal. ring.
Qed.

Lemma modPow_loop_rem fuel :
  forall result base exponent modulus,
    (bitlen exponent <= fuel)%nat -> 0 < exponent -> modulus <> 0 ->
    modPow_loop fuel result base exponent modulus
    = Some (Z.rem (result * base ^ exponent) modulus).
Proof.
  induction fuel as [|fuel IH]; intros result base e m Hfuel He Hm.
  - pose proof (bitlen_pos e ltac:(lia)). lia.
  - cbn [modPow_loop]. destruct (Z.gtb_spec e 0) as [_|]; [|lia].
    pose proof (bitlen_quot2 e He) as Hlen.
    assert (Hq : Z.quot e 2 = e / 2) by (apply Z.quot_div_nonneg; lia).
    assert (Hre : Z.rem e 2 = e mod 2) by (apply Z.rem_mod_nonneg; lia).
    pose proof (Z.div_mod e 2 ltac:(lia)) as Hdm.
    pose proof (Z.mod_pos_bound e 2 ltac:(lia)) as Hmb.
    rewrite Hq in *. rewrite Hre.
    assert (Hsq : forall r, Z.rem (r * Z.rem (base * base) m ^ (e / 2)) m
                            = Z.rem (r * base ^ (2 * (e / 2))) m).
    { intros r. rewrite rem_pow_idemp by (try apply Z.div_pos; lia).
      f_equal. f_equal. rewrite Z.pow_mul_r by (try apply Z.div_pos; lia).
      f_equal. lia. }
    destruct (Z.eq_dec (e / 2) 0) as [Hz|Hnz].
    + assert (e = 1) by lia. subst e. rewrite Hz.
      change (1 mod 2 =? 1) with true. cbv iota.
      rewrite modPow_loop_nonpos by lia. rewrite Z.pow_1_r. reflexivity.
    + assert (0 < e / 2) by (pose proof (Z.div_pos e 2); lia).
      rewrite IH by (try lia). rewrite Hsq.
      destruct (Z.eqb_spec (e mod 2) 1) as [Ho|Ho].
      * rewrite Z.mul_rem_idemp_l by exact Hm.
        assert (Hp : base ^ e = base ^ (2 * (e / 2)) * base ^ 1).
        { rewrite <- Z.pow_add_r by lia. f_equal. lia. }
        rewrite Hp, Z.pow_1_r.
        replace (result * base * base ^ (2 * (e / 2)))
          with (result * (base ^ (2 * (e / 2)) * base)) by ring.
        reflexivity.
      * replace (2 * (e / 2)) with e by lia. reflexivity.
Qed.

(** X7.  For every base and every modulus other than 0, negative ones included,
    and every exponent [>= 0] (modulus -1 needs an exponent above 0),
    [modPow] returns the truncated remainder of [base ^ exponent] by the
    modulus, the value of [%] on BigInts, whose sign is that of
    [base ^ exponent]. *)
Theorem modPow_truncated_remainder base exponent modulus :
  0 <= exponent -> modulus <> 0 -> (exponent = 0 -> modulus <> -1) ->
  modPow base exponent modulus = Returns (Z.rem (base ^ exponent) modulus).
Proof.
  intros He Hm Hone. unfold modPow.
  destruct (Z.eqb_spec modulus 1) as [->|H1].
  - rewrite Z.rem_1_r. reflexivity.
  - destruct (Z.eqb_spec modulus 0); [contradiction|].
    destruct (Z.eq_dec exponent 0) as [->|Hnz].
    + rewrite modPow_loop_nonpos by lia. rewrite Z.pow_0_r.
      rewrite (proj2 (Z.rem_small_iff 1 modulus Hm)); [reflexivity|].
      specialize (Hone eq_refl). lia.
    + rewrite modPow_loop_rem by lia. rewrite Z.mul_1_l.
      replace (Z.rem base modulus ^ exponent) with (1 * Z.rem base modulus ^ exponent) by ring.
      rewrite rem_pow_idemp by lia. rewrite Z.mul_1_l. reflexivity.
Qed.

Lemma modPow_truncated_remainder_witness : modPow (-2) 3 5 = Returns (-3).
Proof. apply (modPow_truncated_remainder (-2) 3 5); lia. Defined.

Lemma puts_app t1 t2 : puts (t1 ++ t2) = (puts t1 + puts t2)%nat.
Proof.
  induction t1 as [|e t1 IH]; [reflexivity|].
  destruct e; cbn; rewrite IH; reflexivity.
Qed.

(** Every callback makes at most as many puts as receives, and returns
    normally when the built-ins terminate. *)
Lemma run_callback_outcome E cb d g :
  exists c g' t,
    run_callback E cb d g = (c, g', t) /\
    (puts t <= receives t)%nat /\
    (builtins_terminate E -> c = Returns tt).
Proof.
  assert (Hget : forall hIn g0, exists c t,
            getMessage E hIn d g0 = (c, g0, t) /\ (puts t <= receives t)%nat /\
            (builtins_terminate E -> c = Returns tt)).
  { intros hIn g0. destruct (getErr d) as [err|] eqn:Hg.
    - unfold getMessage. rewrite Hg.
      destruct (mqrc err =? MQRC_NO_MSG_AVAILABLE);
        (do 2 eexists; split; [reflexivity|]; cbn; split; [lia|reflexivity]).
    - rewrite (getMessage_received E hIn d g0 Hg).
      destruct (processMessage_outcome E d (msgBuffer d) g0)
        as (c & t & Heq & Hno & Hs & Hp & Hun & Hdiv & Hrcv).
      unfold bind at 1 2 3 4. unfold emit at 1 2 3. rewrite Heq. cbn.
      destruct c as [[]|e|]; cbn.
      + do 2 eexists. split; [reflexivity|]. split; [|reflexivity].
        cbn. rewrite puts_app, receives_app. cbn. lia.
      + exfalso. exact (Hno e eq_refl).
      + do 2 eexists. split; [reflexivity|]. split; [cbn; lia|].
        intros Hterm. exfalso. exact (Hdiv eq_refl Hterm). }
  destruct cb as [| |hConn|hConn hIn| |hIn]; cbn [run_callback].
  - do 3 eexists. split; [reflexivity|]. cbn. split; [lia|reflexivity].
  - unfold Connx_callback. destruct (result d);
      (do 3 eexists; split; [reflexivity|]; cbn; split; [lia|reflexivity]).
  - unfold OpenInput_callback. destruct (result d);
      (do 3 eexists; split; [reflexivity|]; cbn; split; [lia|reflexivity]).
  - unfold OpenOutput_callback. destruct (result d) as [err|hOut].
    + do 3 eexists. split; [reflexivity|]. cbn. split; [lia|reflexivity].
    + unfold bind at 1 2. unfold emit at 1. unfold write_outQueueHandle.
      destruct (Hget hIn (Some hOut)) as (c & t & -> & Hp & Hret).
      do 3 eexists. split; [reflexivity|]. split; [exact Hp|exact Hret].
  - unfold Disc_callback. destruct (discErr d);
      (do 3 eexists; split; [reflexivity|]; cbn; split; [lia|reflexivity]).
  - destruct (Hget hIn g) as (c & t & -> & Hp & Hret).
    do 3 eexists. split; [reflexivity|]. split; [exact Hp|exact Hret].
Qed.

(** X23.  When the built-ins terminate, no exception escapes any callback in any
    run of the consumer from its start. *)
Theorem consumer_never_crashes E turns :
  builtins_terminate E -> crashed (run E (start E) turns) = false.
Proof.
  intros Hterm.
  assert (Hrun : forall p, crashed p = false -> crashed (run E p turns) = false).
  { induction turns as [|[cb d] turns IH]; intros p Hp; cbn [run]; [exact Hp|].
    destruct (step E p cb d) as [p1|] eqn:Hstep; [|apply IH; exact Hp].
    apply IH. unfold step in Hstep. rewrite Hp in Hstep.
    destruct (existsb (callback_eqb cb) (pending p)); [|discriminate].
    destruct (run_callback_outcome E cb d (outQueueHandle p)) as (c & g' & t & Heq & _ & Hret).
    rewrite Heq in Hstep. injection Hstep as <-. cbn. rewrite (Hret Hterm). reflexivity. }
  apply Hrun. reflexivity.
Qed.

Lemma consumer_never_crashes_witness :
  crashed (run example_environment (start example_environment)
             [(cb_Connx, opened 3); (cb_OpenInput 3, opened 7);
              (cb_OpenOutput 3 7, opened 9); (cb_getMessage 7, example_delivery);
              (cb_getMessage 7, failed_delivery)]) = false.
Proof. apply consumer_never_crashes. exact example_builtins_terminate. Defined.

(** X24.  In every run of the consumer from its start, the number of messages put
    on the output queue is at most the number of receives issued. *)
Theorem puts_never_exceed_receives E turns :
  (puts (trace (run E (start E) turns)) <= receives (trace (run E (start E) turns)))%nat.
Proof.
  assert (Hrun : forall p, (puts (trace p) <= receives (trace p))%nat ->
            (puts (trace (run E p turns)) <= receives (trace (run E p turns)))%nat).
  { induction turns as [|[cb d] turns IH]; intros p Hp; cbn [run]; [exact Hp|].
    destruct (step E p cb d) as [p1|] eqn:Hstep; [|apply IH; exact Hp].
    apply IH. unfold step in Hstep. destruct (crashed p); [discriminate|].
    destruct (existsb (callback_eqb cb) (pending p)); [|discriminate].
    destruct (run_callback_outcome E cb d (outQueueHandle p)) as (c & g' & t & Heq & Hle & _).
    rewrite Heq in Hstep. injection Hstep as <-. cbn [trace].
    rewrite puts_app, receives_app. lia. }
  apply Hrun. rewrite start_state. cbn. lia.
Qed.

Lemma even_or_small_value_is_answered_not_prime_witness :
  exists last,
    processMessage (environment_reading
                      (Returns (record_of (JNumber (Number_of_BigInt 2)) (JString "10"))))
                   example_delivery [x7b; x7d; x0a] (Some 9) =
    (Returns tt, Some 9,
     [console_log "Processing a message..."; console_log "Record ";
      mq_PutSync 9 MQPMO_NO_SYNCPOINT
        (JSON_stringify
           (environment_reading
              (Returns (record_of (JNumber (Number_of_BigInt 2)) (JString "10"))))
           (response (JNumber (Number_of_BigInt 2)) (JString "10") false));
      last]).
Proof.
  apply (even_or_small_value_is_answered_not_prime
           (environment_reading
              (Returns (record_of (JNumber (Number_of_BigInt 2)) (JString "10"))))
           example_delivery [x7b; x7d; x0a] 9%Z
           [("id"%string, JNumber (Number_of_BigInt 2)); ("value"%string, JString "10")]
           (JNumber (Number_of_BigInt 2)) (JString "10") 10%Z);
    try reflexivity.
  right. split; [lia|reflexivity].
Defined.

Lemma unparsable_text_is_dropped_witness :
  processMessage (environment_reading (Throws SyntaxError)) example_delivery
                 [x7b; x7d; x0a] (Some 9) =
  (Returns tt, Some 9,
   [console_log "Processing a message..."; console_error "Error parsing JSON:"]).
Proof.
  apply (unparsable_text_is_dropped (environment_reading (Throws SyntaxError))
           example_delivery [x7b; x7d; x0a] (Some 9) SyntaxError).
  reflexivity.
Defined.

Lemma value_beyond_double_range_is_dropped_witness :
  processMessage
    (environment_reading
       (Returns (record_of (JNumber (Number_of_BigInt 1)) (JString beyond_doubles))))
    example_delivery [x7b; x7d; x0a] (Some 9) =
  (Returns tt, Some 9,
   [console_log "Processing a message..."; console_error "Error parsing JSON:"]).
Proof.
  apply (value_beyond_double_range_is_dropped
           (environment_reading
              (Returns (record_of (JNumber (Number_of_BigInt 1)) (JString beyond_doubles))))
           example_delivery [x7b; x7d; x0a] (Some 9)
           [("id"%string, JNumber (Number_of_BigInt 1));
            ("value"%string, JString beyond_doubles)]
           (JNumber (Number_of_BigInt 1)) (JString beyond_doubles) (2 ^ 1024 + 5));
    first [ vm_compute; reflexivity
          | apply Z.leb_le; vm_compute; reflexivity
          | intros i; reflexivity ].
Defined.

Lemma getMessage_reschedules_after_every_message_witness :
  exists t,
    getMessage example_environment 7 example_delivery (Some 9) =
      (Returns tt, Some 9, t ++ [setImmediate (cb_getMessage 7)]) /\
    scheduled t = [] /\ (puts t <= 1)%nat /\ receives t = 1%nat.
Proof.
  apply getMessage_reschedules_after_every_message.
  - exact example_builtins_terminate.
  - reflexivity.
Defined.

Lemma polling_loop_never_forks_nor_crashes_witness :
  let p' := run example_environment polling_process
              [(cb_getMessage 7, example_delivery); (cb_getMessage 7, failed_delivery);
               (cb_getMessage 7, example_delivery)] in
  (pending p' = [cb_getMessage 7] \/ pending p' = []) /\ crashed p' = false /\
  outQueueHandle p' = outQueueHandle polling_process.
Proof.
  apply polling_loop_never_forks_nor_crashes.
  - exact example_builtins_terminate.
  - left. reflexivity.
  - reflexivity.
Defined.

Lemma startup_reaches_polling_witness :
  outQueueHandle
    (run example_environment (start example_environment)
       [(cb_Connx, opened 3); (cb_OpenInput 3, opened 7); (cb_OpenOutput 3 7, opened 9)])
  = Some 9.
Proof.
  rewrite (startup_reaches_polling example_environment (opened 3) (opened 7) (opened 9)
             3 7 9 eq_refl eq_refl eq_refl eq_refl).
  reflexivity.
Defined.

Lemma record_with_own_hasOwnProperty_is_dropped_witness :
  processMessage
    (environment_reading
       (Returns (JObject [("hasOwnProperty"%string, JBool true);
                          ("id"%string, JNumber (Number_of_BigInt 1));
                          ("value"%string, JString "97")])))
    example_delivery [x7b; x7d; x0a] (Some 9) =
  (Returns tt, Some 9,
   [console_log "Processing a message..."; console_error "Error parsing JSON:"]).
Proof.
  apply (record_with_own_hasOwnProperty_is_dropped
           (environment_reading
              (Returns (JObject [("hasOwnProperty"%string, JBool true);
                                 ("id"%string, JNumber (Number_of_BigInt 1));
                                 ("value"%string, JString "97")])))
           example_delivery [x7b; x7d; x0a] (Some 9)
           [("hasOwnProperty"%string, JBool true);
            ("id"%string, JNumber (Number_of_BigInt 1));
            ("value"%string, JString "97")]);
    reflexivity.
Defined.

Lemma record_with_unprintable_id_is_dropped_witness :
  processMessage
    (environment_reading
       (Returns (record_of (JObject [("toString"%string, JNull)]) (JString "97"))))
    example_delivery [x7b; x7d; x0a] (Some 9) =
  (Returns tt, Some 9,
   [console_log "Processing a message..."; console_error "Error parsing JSON:"]).
Proof.
  apply (record_with_unprintable_id_is_dropped
           (environment_reading
              (Returns (record_of (JObject [("toString"%string, JNull)]) (JString "97"))))
           example_delivery [x7b; x7d; x0a] (Some 9)
           [("id"%string, JObject [("toString"%string, JNull)]);
            ("value"%string, JString "97")]
           (JObject [("toString"%string, JNull)]) (JString "97") 97%Z true);
    vm_compute; reflexivity.
Defined.

Lemma msgBuffer_of_a_message_that_fits_witness :
  msgBuffer example_delivery = getData example_delivery.
Proof.
  apply msgBuffer_of_a_message_that_fits; [cbn; lia|reflexivity].
Defined.
